(** * The vulnerability-detector extension: renderer, launcher and command handler

    A shallow embedding of [extension.js], the VS Code side of the detector,
    and of the contract of the scan engine it starts.  The repository holds
    two versions of [extension.js].  They agree on the command handler and
    on the launcher and differ in [getResultsHtml]: one renders a response
    with a [results] array, the other ([src/extension.js]) a flat result
    with a single finding.  Both renderers are embedded.

    Strings are byte strings.  The characters the code tests for are ASCII,
    and an ASCII byte never occurs inside a multi-byte UTF-8 sequence, so
    replacing bytes agrees with the source's replacement of characters. *)

From Stdlib Require Import String Ascii ZArith List DecimalString Bool Lia Sorted.
From stdpp Require Import gmap strings list.

Open Scope string_scope.
Open Scope list_scope.

(** ** JavaScript values and built-ins *)

(** The double quote character, as a one-character string. *)
Definition dq : string := String "034"%char EmptyString.

(** What a property read on one of the extension's object literals can
    yield: [undefined], a string stored in the literal, or a member inherited
    from [Object.prototype] (a function, or the prototype object itself for
    [__proto__]). *)
Inductive JsValue : Type :=
| JsUndefined
| JsString (s : string)
| JsInherited (name : string).

(** The property names every object literal inherits from
    [Object.prototype]. *)
Definition objectPrototypeKeys : list string :=
  [ "constructor"; "__defineGetter__"; "__defineSetter__"; "hasOwnProperty";
    "__lookupGetter__"; "__lookupSetter__"; "isPrototypeOf";
    "propertyIsEnumerable"; "toString"; "valueOf"; "__proto__";
    "toLocaleString" ].

(** [obj[key]] on an object literal whose own properties are [obj]: own
    properties first, then the prototype chain. *)
Definition jsGet (obj : gmap string string) (key : string) : JsValue :=
  match obj !! key with
  | Some v => JsString v
  | None =>
      if bool_decide (key ∈ objectPrototypeKeys) then JsInherited key
      else JsUndefined
  end.

(** Truthiness, as tested by [!x], [x || y] and [x ? a : b]. *)
Definition truthy (v : JsValue) : bool :=
  match v with
  | JsUndefined => false
  | JsString s => negb (String.eqb s "")
  | JsInherited _ => true
  end.

(** [x || y]. *)
Definition jsOr (x y : JsValue) : JsValue := if truthy x then x else y.

(** [String(v)], which is also what a template literal does with [${v}]. *)
Definition jsToString (v : JsValue) : string :=
  match v with
  | JsUndefined => "undefined"
  | JsString s => s
  | JsInherited name =>
      if String.eqb name "__proto__" then "[object Object]"
      else if String.eqb name "constructor" then "function Object() { [native code] }"
      else "function " +:+ name +:+ "() { [native code] }"
  end.

(** An integer interpolated into a template literal, in decimal digits as
    JavaScript prints the integers below [10^21] in magnitude (exit codes,
    counts, indices and line numbers); beyond that JavaScript switches to
    the exponent form, which is left out here. *)
Definition showZ (z : Z) : string := NilZero.string_of_int (Z.to_int z).

(** [a.join(sep)]. *)
Definition join (sep : string) (a : list string) : string := String.concat sep a.

(** [s.replace(/c/g, by)] for a one-character pattern [c]. *)
Fixpoint replaceAll (c : ascii) (by_ : string) (s : string) : string :=
  match s with
  | EmptyString => EmptyString
  | String a rest =>
      if Ascii.eqb a c then by_ +:+ replaceAll c by_ rest
      else String a (replaceAll c by_ rest)
  end.

(** [escapeHtml], the arrow function inside [getResultsHtml] (the same in
    both versions of the file). *)
Definition escapeHtml (str : JsValue) : string :=
  replaceAll "'" "&#039;"
    (replaceAll "034" "&quot;"
       (replaceAll ">" "&gt;"
          (replaceAll "<" "&lt;"
             (replaceAll "&" "&amp;" (jsToString str))))).

(** ** The response payload *)

(** One finding of the response.  [lines] may be missing, which the renderer
    allows for with [vuln.lines || []]. *)
Record Finding : Type := mkFinding {
  vulnerability : string;
  severity : string;
  lines : option (list Z);
  explanation : string;
  patch : string
}.

(** The response object handed to [getResultsHtml]; [results] may be missing
    ([result.results || []]). *)
Record Response : Type := mkResponse {
  language : string;
  results : option (list Finding)
}.

(** ** Pieces of rendered HTML *)

(** A piece of output, tagged by where the template takes it from: template
    text, a value passed through [escapeHtml], or a value interpolated as it
    is. *)
Inductive Chunk : Type :=
| Lit (s : string)
| Esc (s : string)
| Raw (s : string).

Definition chunkText (c : Chunk) : string :=
  match c with Lit s | Esc s | Raw s => s end.

(** The string a template literal evaluates to. *)
Definition renderChunks (cs : list Chunk) : string :=
  String.concat "" (map chunkText cs).

(** A string free of the characters that open or close markup or an
    attribute value. *)
Definition isMarkupChar (a : ascii) : bool :=
  Ascii.eqb a "<" || Ascii.eqb a ">" || Ascii.eqb a "034" || Ascii.eqb a "'".

Fixpoint markupFree (s : string) : bool :=
  match s with
  | EmptyString => true
  | String a rest => negb (isMarkupChar a) && markupFree rest
  end.

(** [c] does not occur in [s]. *)
Fixpoint absent (c : ascii) (s : string) : bool :=
  match s with
  | EmptyString => true
  | String a rest => negb (Ascii.eqb a c) && absent c rest
  end.

(** A piece that does not come from the template text is markup free. *)
Definition chunkSafe (c : Chunk) : bool :=
  match c with
  | Lit _ => true
  | Esc s | Raw s => markupFree s
  end.

(** The texts of the pieces that went through [escapeHtml], in order. *)
Definition escapedTexts (cs : list Chunk) : list string :=
  omap (fun c => match c with Esc s => Some s | _ => None end) cs.

(** [needle] occurs in [s]. *)
Fixpoint occursIn (needle s : string) : bool :=
  String.prefix needle s ||
  match s with
  | EmptyString => false
  | String _ rest => occursIn needle rest
  end.

(** ** [getResultsHtml], the version with a [results] array *)

(** The object literal [severityColors]. *)

Definition severityColors : gmap string string :=
  <["Critical" := "#dc2626"]>
  (<["High" := "#ea580c"]>
  (<["Medium" := "#ca8a04"]>
  (<["Low" := "#16a34a"]>
  (<["Safe" := "#22c55e"]>
  (<["N/A" := "#6b7280"]> ∅))))).

(** The text of the template literals, cut at the interpolations:
    [cardTpl0] to [cardTpl10] make up the card of one finding
    ([cardTpl1_inner0] to [cardTpl1_inner2] are the nested "Issue i of n"
    template, [cardTpl4_inner0] and [cardTpl4_inner1] the nested location
    badge), [safeMessageTpl0] is the safe message, and [pageTpl0] to
    [pageTpl4] make up the page. *)

Definition cardTpl0 : string :=
  String.concat dq ["
            <div class="; "vuln-section"; " style="; "margin-bottom: 24px; padding-bottom: 24px; border-bottom: 1px solid var(--vscode-panel-border);"; ">
                "].

Definition cardTpl1_inner0 : string :=
  String.concat dq ["<div class="; "vuln-number"; " style="; "font-size: 11px; color: var(--vscode-descriptionForeground); margin-bottom: 8px;"; ">Issue "].

Definition cardTpl1_inner1 : string :=
  " of ".

Definition cardTpl1_inner2 : string :=
  "</div>".

Definition cardTpl1 : string :=
  String.concat dq ["
                
                <div class="; "card"; ">
                    <div class="; "card-title"; ">Vulnerability</div>
                    <div class="; "vulnerability-name"; " style="; "color: "].

Definition cardTpl2 : string :=
  String.concat dq [";"; ">"].

Definition cardTpl3 : string :=
  String.concat dq ["</div>
                </div>

                <div class="; "card"; ">
                    <div class="; "card-title"; ">Location & Severity</div>
                    <div style="; "display: flex; gap: 8px; align-items: center; flex-wrap: wrap;"; ">
                        "].

Definition cardTpl4_inner0 : string :=
  String.concat dq ["<span class="; "location-badge"; " style="; "display: inline-flex; align-items: center; gap: 4px; padding: 4px 10px; border-radius: 4px; font-size: 12px; font-weight: 500; background: #3b82f622; color: #3b82f6; border: 1px solid #3b82f644;"; ">
                            <span style="; "font-size: 14px;"; ">üìç</span> "].

Definition cardTpl4_inner1 : string :=
  "
                        </span>".

Definition cardTpl4 : string :=
  String.concat dq ["
                        <span class="; "severity-badge"; " style="; "background: "].

Definition cardTpl5 : string :=
  "22; color: ".

Definition cardTpl6 : string :=
  "; border: 1px solid ".

Definition cardTpl7 : string :=
  String.concat dq ["44;"; ">"].

Definition cardTpl8 : string :=
  String.concat dq ["</span>
                    </div>
                </div>

                <div class="; "card"; ">
                    <div class="; "card-title"; ">Explanation</div>
                    <p class="; "explanation"; ">"].

Definition cardTpl9 : string :=
  String.concat dq ["</p>
                </div>

                <div class="; "card"; ">
                    <div class="; "card-title"; ">Recommended Fix</div>
                    <pre class="; "patch-code"; ">"].

Definition cardTpl10 : string :=
  "</pre>
                </div>
            </div>".

Definition safeMessageTpl0 : string :=
  String.concat dq ["
        <div class="; "safe-message"; " style="; "text-align: center; padding: 40px 20px;"; ">
            <div style="; "font-size: 48px; margin-bottom: 16px;"; ">‚úÖ</div>
            <h2 style="; "font-size: 18px; font-weight: 600; margin-bottom: 12px; color: #22c55e;"; ">Code Appears Safe</h2>
            <p style="; "color: var(--vscode-descriptionForeground); max-width: 400px; margin: 0 auto;"; ">
                No common vulnerability patterns were detected in this code snippet. 
                Note: This is a pattern-based analysis and may not catch all security issues. 
                Always follow secure coding practices and conduct thorough security reviews.
            </p>
        </div>"].

Definition pageTpl0 : string :=
  String.concat dq ["<!DOCTYPE html>
<html lang="; "en"; ">
<head>
    <meta charset="; "UTF-8"; ">
    <meta name="; "viewport"; " content="; "width=device-width, initial-scale=1.0"; ">
    <title>Security Analysis Results</title>
    <style>
        * {
            margin: 0;
            padding: 0;
            box-sizing: border-box;
        }
        body {
            font-family: -apple-system, BlinkMacSystemFont, 'Segoe UI', Roboto, Oxygen, Ubuntu, sans-serif;
            padding: 20px;
            background: var(--vscode-editor-background);
            color: var(--vscode-editor-foreground);
            line-height: 1.6;
        }
        .header {
            display: flex;
            align-items: center;
            gap: 12px;
            margin-bottom: 24px;
            padding-bottom: 16px;
            border-bottom: 1px solid var(--vscode-panel-border);
        }
        .header-icon {
            font-size: 32px;
        }
        .header-text h1 {
            font-size: 18px;
            font-weight: 600;
        }
        .header-text .status {
            font-size: 14px;
            color: "].

Definition pageTpl1 : string :=
  String.concat dq [";
            font-weight: 500;
        }
        .card {
            background: var(--vscode-input-background);
            border: 1px solid var(--vscode-panel-border);
            border-radius: 8px;
            padding: 16px;
            margin-bottom: 12px;
        }
        .card-title {
            font-size: 12px;
            text-transform: uppercase;
            letter-spacing: 0.5px;
            color: var(--vscode-descriptionForeground);
            margin-bottom: 8px;
        }
        .vulnerability-name {
            font-size: 16px;
            font-weight: 600;
        }
        .severity-badge {
            display: inline-block;
            padding: 4px 12px;
            border-radius: 4px;
            font-size: 12px;
            font-weight: 600;
        }
        .explanation {
            font-size: 14px;
            line-height: 1.7;
        }
        .patch-code {
            background: var(--vscode-textCodeBlock-background);
            border: 1px solid var(--vscode-panel-border);
            border-radius: 4px;
            padding: 12px;
            font-family: 'Consolas', 'Monaco', 'Courier New', monospace;
            font-size: 13px;
            white-space: pre-wrap;
            overflow-x: auto;
        }
        .footer {
            margin-top: 24px;
            padding-top: 16px;
            border-top: 1px solid var(--vscode-panel-border);
            font-size: 12px;
            color: var(--vscode-descriptionForeground);
        }
    </style>
</head>
<body>
    <div class="; "header"; ">
        <span class="; "header-icon"; ">"].

Definition pageTpl2 : string :=
  String.concat dq ["</span>
        <div class="; "header-text"; ">
            <h1>Security Analysis Results</h1>
            <div class="; "status"; ">"].

Definition pageTpl3 : string :=
  "</div>
        </div>
    </div>

    ".

Definition pageTpl4 : string :=
  String.concat dq ["

    <div class="; "footer"; ">
        <p>üîí AI Code Vulnerability Detector ‚Ä¢ Pattern-based security analysis</p>
        <p>Note: This tool uses pattern matching and may not detect all vulnerabilities. Always conduct thorough security reviews.</p>
    </div>
</body>
</html>"].

(** [vulnCount > 0 && results[0].vulnerability !== 'Error'] *)
Definition hasVulnerabilities (results : list Finding) : bool :=
  match results with
  | [] => false
  | first :: _ => negb (String.eqb (vulnerability first) "Error")
  end.

(** [vulnCount > 0 && results[0].vulnerability === 'Error'] *)
Definition isError (results : list Finding) : bool :=
  match results with
  | [] => false
  | first :: _ => String.eqb (vulnerability first) "Error"
  end.

(** The three variables set by the [if (isError) ... else if
    (hasVulnerabilities) ... else ...] cascade. *)
Record Header : Type := mkHeader {
  statusIcon : string;
  statusText : string;
  headerColor : string
}.

(** [statusIcon], [statusText] and [headerColor] after the cascade. *)
Definition header (results : list Finding) : Header :=
  let vulnCount := length results in
  if isError results then
    mkHeader "‚ùå" "Analysis Error" "#6b7280"
  else if hasVulnerabilities results then
    mkHeader "‚ö†Ô∏è"
      (showZ (Z.of_nat vulnCount) +:+ " " +:+
       (if Nat.eqb vulnCount 1 then "vulnerability" else "vulnerabilities")
       +:+ " detected")
      "#ea580c"
  else
    mkHeader "‚úÖ" "No vulnerabilities detected" "#22c55e".

(** [lineText] of one finding. *)
Definition lineText (lines : list Z) : string :=
  match lines with
  | [] => ""
  | [l] => "Line " +:+ showZ l
  | _ :: _ :: _ => "Lines " +:+ join ", " (map showZ lines)
  end.

(** The body of the [forEach] callback: the card appended to [cardsHtml] for
    the finding at position [index]. *)
Definition cardChunks (vulnCount index : nat) (vuln : Finding) : list Chunk :=
  let severityColor :=
    jsToString (jsOr (jsGet severityColors (severity vuln)) (JsString "#6b7280")) in
  let lines := default [] (lines vuln) in
  let lineText := lineText lines in
  [Lit cardTpl0] ++
  (if Nat.ltb 1 vulnCount then
     [Lit cardTpl1_inner0; Raw (showZ (Z.of_nat index + 1));
      Lit cardTpl1_inner1; Raw (showZ (Z.of_nat vulnCount));
      Lit cardTpl1_inner2]
   else []) ++
  [Lit cardTpl1; Raw severityColor; Lit cardTpl2;
   Esc (escapeHtml (JsString (vulnerability vuln))); Lit cardTpl3] ++
  (if truthy (JsString lineText) then
     [Lit cardTpl4_inner0; Esc (escapeHtml (JsString lineText));
      Lit cardTpl4_inner1]
   else []) ++
  [Lit cardTpl4; Raw severityColor; Lit cardTpl5; Raw severityColor;
   Lit cardTpl6; Raw severityColor; Lit cardTpl7;
   Esc (escapeHtml (JsString (severity vuln))); Lit cardTpl8;
   Esc (escapeHtml (JsString (explanation vuln))); Lit cardTpl9;
   Esc (escapeHtml (JsString (patch vuln))); Lit cardTpl10].

(** [cardsHtml]: one card per finding, or the safe message. *)
Definition cardsChunks (results : list Finding) : list Chunk :=
  if hasVulnerabilities results || isError results then
    concat (imap (cardChunks (length results)) results)
  else
    [Lit safeMessageTpl0].

(** The pieces of the page [getResultsHtml] returns. *)
Definition getResultsChunks (result : Response) : list Chunk :=
  let results := default [] (results result) in
  let h := header results in
  [Lit pageTpl0; Raw (headerColor h); Lit pageTpl1; Raw (statusIcon h);
   Lit pageTpl2; Raw (statusText h); Lit pageTpl3] ++
  cardsChunks results ++
  [Lit pageTpl4].

(** [getResultsHtml(result)]: the page as one string. *)
Definition getResultsHtml (result : Response) : string :=
  renderChunks (getResultsChunks result).

(** ** [getResultsHtml], the version of [src/extension.js]

    This version renders a flat result object: one finding, with the
    category ["None Detected"] standing for safe code. *)
Module Legacy.

Record Result : Type := mkResult {
  vulnerability : string;
  severity : string;
  explanation : string;
  patch : string
}.

(** The text of the page's template literal, cut at its interpolations. *)

Definition pageTpl0 : string :=
  String.concat dq ["<!DOCTYPE html>
<html lang="; "en"; ">
<head>
    <meta charset="; "UTF-8"; ">
    <meta name="; "viewport"; " content="; "width=device-width, initial-scale=1.0"; ">
    <title>Security Analysis Results</title>
    <style>
        * {
            margin: 0;
            padding: 0;
            box-sizing: border-box;
        }
        body {
            font-family: -apple-system, BlinkMacSystemFont, 'Segoe UI', Roboto, Oxygen, Ubuntu, sans-serif;
            padding: 20px;
            background: var(--vscode-editor-background);
            color: var(--vscode-editor-foreground);
            line-height: 1.6;
        }
        .header {
            display: flex;
            align-items: center;
            gap: 12px;
            margin-bottom: 24px;
            padding-bottom: 16px;
            border-bottom: 1px solid var(--vscode-panel-border);
        }
        .header-icon {
            font-size: 32px;
        }
        .header-text h1 {
            font-size: 18px;
            font-weight: 600;
        }
        .header-text .status {
            font-size: 14px;
            color: var(--vscode-descriptionForeground);
        }
        .card {
            background: var(--vscode-input-background);
            border: 1px solid var(--vscode-panel-border);
            border-radius: 8px;
            padding: 16px;
            margin-bottom: 16px;
        }
        .card-title {
            font-size: 12px;
            text-transform: uppercase;
            letter-spacing: 0.5px;
            color: var(--vscode-descriptionForeground);
            margin-bottom: 8px;
        }
        .vulnerability-name {
            font-size: 16px;
            font-weight: 600;
            color: "].

Definition pageTpl1 : string :=
  ";
        }
        .severity-badge {
            display: inline-block;
            padding: 4px 12px;
            border-radius: 4px;
            font-size: 12px;
            font-weight: 600;
            background: ".

Definition pageTpl2 : string :=
  "22;
            color: ".

Definition pageTpl3 : string :=
  ";
            border: 1px solid ".

Definition pageTpl4 : string :=
  String.concat dq ["44;
        }
        .explanation {
            font-size: 14px;
            line-height: 1.7;
        }
        .patch-code {
            background: var(--vscode-textCodeBlock-background);
            border: 1px solid var(--vscode-panel-border);
            border-radius: 4px;
            padding: 12px;
            font-family: 'Consolas', 'Monaco', 'Courier New', monospace;
            font-size: 13px;
            white-space: pre-wrap;
            overflow-x: auto;
        }
        .footer {
            margin-top: 24px;
            padding-top: 16px;
            border-top: 1px solid var(--vscode-panel-border);
            font-size: 12px;
            color: var(--vscode-descriptionForeground);
        }
    </style>
</head>
<body>
    <div class="; "header"; ">
        <span class="; "header-icon"; ">"].

Definition pageTpl5 : string :=
  String.concat dq ["</span>
        <div class="; "header-text"; ">
            <h1>Security Analysis Results</h1>
            <div class="; "status"; ">"].

Definition pageTpl6 : string :=
  String.concat dq ["</div>
        </div>
    </div>

    <div class="; "card"; ">
        <div class="; "card-title"; ">Vulnerability</div>
        <div class="; "vulnerability-name"; ">"].

Definition pageTpl7 : string :=
  String.concat dq ["</div>
    </div>

    <div class="; "card"; ">
        <div class="; "card-title"; ">Severity Level</div>
        <span class="; "severity-badge"; ">"].

Definition pageTpl8 : string :=
  String.concat dq ["</span>
    </div>

    <div class="; "card"; ">
        <div class="; "card-title"; ">Explanation</div>
        <p class="; "explanation"; ">"].

Definition pageTpl9 : string :=
  String.concat dq ["</p>
    </div>

    <div class="; "card"; ">
        <div class="; "card-title"; ">Recommended Fix</div>
        <pre class="; "patch-code"; ">"].

Definition pageTpl10 : string :=
  String.concat dq ["</pre>
    </div>

    <div class="; "footer"; ">
        <p>🔒 AI Code Vulnerability Detector • Pattern-based security analysis</p>
        <p>Note: This tool uses pattern matching and may not detect all vulnerabilities. Always conduct thorough security reviews.</p>
    </div>
</body>
</html>"].

(** [result.vulnerability !== 'None Detected' && result.vulnerability !== 'Error'] *)
Definition isVulnerable (result : Result) : bool :=
  negb (String.eqb (vulnerability result) "None Detected") &&
  negb (String.eqb (vulnerability result) "Error").

(** [statusIcon] and [statusText]. *)
Definition statusIcon (result : Result) : string :=
  if isVulnerable result then "⚠️"
  else if String.eqb (vulnerability result) "Error" then "❌" else "✅".

Definition statusText (result : Result) : string :=
  if isVulnerable result then "Vulnerability Detected"
  else if String.eqb (vulnerability result) "Error" then "Analysis Error"
  else "Code Appears Safe".

(** The pieces of the page; [severityColor] is interpolated four times into
    the style sheet. *)
Definition getResultsChunks (result : Result) : list Chunk :=
  let severityColor :=
    jsToString (jsOr (jsGet severityColors (severity result)) (JsString "#6b7280")) in
  [Lit pageTpl0; Raw severityColor; Lit pageTpl1; Raw severityColor;
   Lit pageTpl2; Raw severityColor; Lit pageTpl3; Raw severityColor;
   Lit pageTpl4; Raw (statusIcon result); Lit pageTpl5;
   Raw (statusText result); Lit pageTpl6;
   Esc (escapeHtml (JsString (vulnerability result))); Lit pageTpl7;
   Esc (escapeHtml (JsString (severity result))); Lit pageTpl8;
   Esc (escapeHtml (JsString (explanation result))); Lit pageTpl9;
   Esc (escapeHtml (JsString (patch result))); Lit pageTpl10].

(** [getResultsHtml(result)]: the page as one string. *)
Definition getResultsHtml (result : Result) : string :=
  renderChunks (getResultsChunks result).

End Legacy.

(** ** The host: built-ins the extension calls

    [R] is the type of a parsed response.  [JSON_parse] is [None] where
    [JSON.parse] throws, and else the parsed value, which the renderers read
    as a response of the protocol; [JSON_stringify] takes the fields of the
    object literal in order; [trim] is [String.prototype.trim] and
    [path_join] is [path.join]. *)
Class Host (R : Type) : Type := mkHost {
  JSON_parse : string -> option R;
  JSON_stringify : list (string * JsValue) -> string;
  trim : string -> string;
  path_join : string -> string -> string
}.

(** ** Child processes *)

(** What a child process emits: a chunk on [stdout] or [stderr] (already
    converted with [data.toString()]), ['error'], or ['close'] with its exit
    code ([None] is JavaScript's [null], for a child ended by a signal). *)
Inductive ProcEvent : Type :=
| StdoutData (data : string)
| StderrData (data : string)
| ErrorEvent
| CloseEvent (exitCode : option Z).

(** A chunk of output and the stream it arrives on. *)
Inductive Stream : Type := Stdout | Stderr.

Definition dataEvent (chunk : Stream * string) : ProcEvent :=
  match chunk with
  | (Stdout, data) => StdoutData data
  | (Stderr, data) => StderrData data
  end.

(** Everything received on one stream, in order of arrival. *)
Fixpoint received (stream : Stream) (chunks : list (Stream * string)) : string :=
  match chunks with
  | [] => ""
  | (Stdout, data) :: rest =>
      match stream with
      | Stdout => data +:+ received stream rest
      | Stderr => received stream rest
      end
  | (Stderr, data) :: rest =>
      match stream with
      | Stdout => received stream rest
      | Stderr => data +:+ received stream rest
      end
  end.

(** The number of ['error'] events of a child. *)
Fixpoint errorCount (events : list ProcEvent) : nat :=
  match events with
  | [] => 0
  | ErrorEvent :: rest => S (errorCount rest)
  | _ :: rest => errorCount rest
  end.

(** The child emits ['close']. *)
Fixpoint closes (events : list ProcEvent) : bool :=
  match events with
  | [] => false
  | CloseEvent _ :: _ => true
  | _ :: rest => closes rest
  end.

(** The machine the request runs on: the events of a child started with the
    given interpreter command. *)
Definition Spawner : Type := string -> list ProcEvent.

Inductive StdinOp : Type :=
| StdinWrite (input : string)
| StdinEnd.

(** A child started with [spawn(pythonCmd, [detectorPath])] and what was
    done to its standard input. *)
Record Child : Type := mkChild {
  childCommand : string;
  childArgs : list string;
  childStdin : list StdinOp
}.

(** How the promise of [analyzeCode] is settled. *)
Inductive Settlement (R : Type) : Type :=
| Resolved (result : R)
| Rejected (message : string).
Arguments Resolved {R} result.
Arguments Rejected {R} message.

(** The state a request acts on: the promise ([settled] keeps the first
    settlement, as a promise does), every call of [resolve] or [reject] in
    order, and the children started so far. *)
Record World (R : Type) : Type := mkWorld {
  settled : option (Settlement R);
  calls : list (Settlement R);
  children : list Child
}.
Arguments mkWorld {R} settled calls children.
Arguments settled {R} w.
Arguments calls {R} w.
Arguments children {R} w.

Definition newWorld {R : Type} : World R := mkWorld None [] [].

(** A call of [resolve] or [reject]. *)
Definition settle {R : Type} (s : Settlement R) (w : World R) : World R :=
  mkWorld (match settled w with Some first => Some first | None => Some s end)
          (calls w ++ [s]) (children w).

Definition addChild {R : Type} (c : Child) (w : World R) : World R :=
  mkWorld (settled w) (calls w) (children w ++ [c]).

(** [exitCode] interpolated into the message. *)
Definition showExitCode (exitCode : option Z) : string :=
  match exitCode with Some n => showZ n | None => "null" end.

Definition notInstalled : string :=
  "Python is not installed or not in PATH. Please install Python 3.x.".

Section Launcher.
Context {R : Type} `{Host R}.

(** The ['close'] handler of [tryPythonCommand]. *)
Definition onClose (exitCode : option Z) (stdout stderr : string) : Settlement R :=
  match exitCode with
  | Some 0%Z =>
      match JSON_parse stdout with
      | Some result => Resolved result
      | None => Rejected ("Failed to parse detector output: " +:+ stdout)
      end
  | _ =>
      Rejected ("Detector exited with code " +:+ showExitCode exitCode +:+ ": " +:+ stderr)
  end.

Variable spawner : Spawner.
Variable commands : list string.
Variable detectorPath : string.
Variable code : string.
Variable language : JsValue.

(** The request payload, [JSON.stringify({ code, language })]. *)
Definition requestPayload : string :=
  JSON_stringify [("code", JsString code); ("language", language)].

(** The part of [tryPythonCommand(commands, index, ...)] that runs at once:
    reject when the list is exhausted, or else start the child, register the
    handlers, write the request and end the input. *)
Definition tryPythonCommand (index : nat) (w : World R) : World R :=
  match commands !! index with
  | None => settle (Rejected notInstalled) w
  | Some pythonCmd =>
      addChild (mkChild pythonCmd [detectorPath]
                        [StdinWrite requestPayload; StdinEnd]) w
  end.

(** The handlers of the child started at [index], run on its events in
    order.  [stdout] and [stderr] are the child's two accumulators;
    [retries] counts the calls of [tryPythonCommand] at [index + 1]. *)
Fixpoint deliver (index : nat) (events : list ProcEvent) (stdout stderr : string)
    (w : World R) (retries : nat) : World R * nat :=
  match events with
  | [] => (w, retries)
  | StdoutData data :: rest => deliver index rest (stdout +:+ data) stderr w retries
  | StderrData data :: rest => deliver index rest stdout (stderr +:+ data) w retries
  | ErrorEvent :: rest =>
      deliver index rest stdout stderr (tryPythonCommand (index + 1) w) (S retries)
  | CloseEvent exitCode :: rest =>
      deliver index rest stdout stderr (settle (onClose exitCode stdout stderr) w) retries
  end.

(** The events of the [count] children started at [index], then those of the
    children they started, and so on: one of the orders in which the
    handlers can run, the one where all events of a child are delivered
    before any event of a child started later.  Node is free to deliver the
    events of different children in other orders;
    [Scheduled.runSchedule] below leaves the order open, and what depends
    on the order is stated there. *)
Fixpoint runChildren (levels : nat) (index count : nat) (w : World R) : World R :=
  match levels with
  | O => w
  | S levels' =>
      match commands !! index with
      | None => w
      | Some pythonCmd =>
          let '(w', retries) :=
            Nat.iter count
              (fun '(w0, r0) => deliver index (spawner pythonCmd) "" "" w0 r0)
              (w, 0) in
          runChildren levels' (index + 1) retries w'
      end
  end.

(** A whole request: the first call of [tryPythonCommand], then every event
    that follows from it. *)
Definition runRequest : World R :=
  runChildren (length commands) 0 1 (tryPythonCommand 0 newWorld).

(** The state of a request between two levels of children: at most one
    child is running, the children started so far are the first candidates
    in order, and the promise is settled unless a child is running. *)
Definition betweenLevels (index count : nat) (w : World R) : Prop :=
  count <= 1 /\
  length (children w) <= index + count /\
  (count = 1 -> index < length commands -> length (children w) = index + 1) /\
  map childCommand (children w) = take (length (children w)) commands /\
  (is_Some (settled w) \/ (count = 1 /\ index < length commands)).

End Launcher.

(** [analyzeCode(code, language, context)]: the promise and what happened to
    it on the machine [spawner]. *)
Definition analyzeCode {R : Type} `{Host R} (spawner : Spawner)
    (code : string) (language : JsValue) (extensionPath : string) : World R :=
  let detectorPath := path_join extensionPath "detector.py" in
  let pythonCommands := ["python"; "python3"; "py"] in
  runRequest spawner pythonCommands detectorPath code language.

(** ** The command handler registered by [activate] *)

Record Editor : Type := mkEditor {
  selectedText : string;
  languageId : string
}.

Inductive UiAction : Type :=
| ShowErrorMessage (message : string)
| ShowWarningMessage (message : string)
| WithProgress (title : string)
| ShowResultsPanel (html : string).

(** What one run of the command did: the calls on [vscode.window] in order,
    and the analysis request if one was made. *)
Record CommandRun (R : Type) : Type := mkCommandRun {
  ui : list UiAction;
  request : option (World R)
}.
Arguments mkCommandRun {R} ui request.
Arguments ui {R} c.
Arguments request {R} c.

Definition languageMap : gmap string string :=
  <["python" := "python"]>
  (<["javascript" := "javascript"]>
  (<["javascriptreact" := "javascript"]>
  (<["typescript" := "javascript"]>
  (<["typescriptreact" := "javascript"]> ∅)))).

(** The handler of [vulnDetection.analyze], as far as the guards, the
    request and a result that renders are concerned.  [render] is
    [getResultsHtml], that of the version at hand, on a value it makes a
    page of; [ShowResultsPanel] stands for the panel created and given that
    page.  [Scheduled.analyzeCommand] below has the handler with a renderer
    that may throw and with the two calls on the panel apart. *)
Definition analyzeCommand {R : Type} `{Host R} (render : R -> string)
    (spawner : Spawner) (extensionPath : string)
    (activeTextEditor : option Editor) : CommandRun R :=
  match activeTextEditor with
  | None => mkCommandRun [ShowErrorMessage "No active editor found."] None
  | Some editor =>
      let selectedText := selectedText editor in
      if negb (truthy (JsString selectedText)) || String.eqb (trim selectedText) "" then
        mkCommandRun [ShowErrorMessage "Please select some code to analyze."] None
      else
        let languageId := languageId editor in
        let language := jsGet languageMap languageId in
        if negb (truthy language) then
          mkCommandRun
            [ShowWarningMessage
               ("Language " +:+ dq +:+ languageId +:+ dq +:+
                " is not supported. Only Python and JavaScript are currently supported.")]
            None
        else
          let w := analyzeCode spawner selectedText language extensionPath in
          mkCommandRun
            (WithProgress "Analyzing code for vulnerabilities..." ::
             match settled w with
             | Some (Resolved result) => [ShowResultsPanel (render result)]
             | Some (Rejected message) =>
                 [ShowErrorMessage ("Analysis failed: " +:+ message)]
             | None => []
             end)
            (Some w)
  end.

(** ** Machines and a host to run the definitions on *)

(** What Node emits for a command that is not installed: ['error'], then
    ['close'] with the negated errno of ENOENT. *)
Definition commandNotFound : list ProcEvent :=
  [ErrorEvent; CloseEvent (Some (-2)%Z)].

(** A machine without any of the interpreters. *)
Definition noPython : Spawner := fun _ => commandNotFound.

(** A machine where only [python3] is installed; the detector answers with
    no findings. *)
Definition python3Only : Spawner := fun pythonCmd =>
  if String.eqb pythonCmd "python3" then
    [StdoutData "{}"; CloseEvent (Some 0%Z)]
  else commandNotFound.

(** A machine where [python] is installed. *)
Definition pythonInstalled : Spawner := fun pythonCmd =>
  if String.eqb pythonCmd "python" then
    [StdoutData "{"; StdoutData "}"; CloseEvent (Some 0%Z)]
  else commandNotFound.

(** A host that parses the one payload the machines above print, and writes
    a request as its fields joined by line feeds. *)
Definition sampleHost : Host Response :=
  mkHost Response
    (fun text => if String.eqb text "{}" then Some (mkResponse "python" (Some []))
                 else None)
    (fun fields =>
       join (String "010" "")
         (map (fun field => fst field +:+ "=" +:+ jsToString (snd field)) fields))
    (fun text => text)
    (fun dir name => dir +:+ "/" +:+ name).

(** ** The scan engine

    The engine is [detector.py], which the extension starts as a child
    process; the file is not among the sources at hand.  The definitions of
    this module follow the specification instead: the data model of section
    3 and the algorithm of section 4.2. *)
Module Engine.

(** Modelled from the spec: the severity of a rule of [detector.py]
    (section 3), an ordered enumeration. *)
Inductive Severity : Type := Critical | High | Medium | Low.

(** Modelled from the spec: the total order Critical > High > Medium > Low
    of [detector.py]'s severities, as a rank. *)
Definition rank (s : Severity) : nat :=
  match s with Critical => 3 | High => 2 | Medium => 1 | Low => 0 end.

(** Modelled from the spec: the severity as [detector.py] writes it in the
    response payload (section 6). *)
Definition severityLabel (s : Severity) : string :=
  match s with
  | Critical => "Critical" | High => "High" | Medium => "Medium" | Low => "Low"
  end.

(** Modelled from the spec: the closed set of languages of [detector.py]
    (section 3). *)
Definition supported (language : string) : bool :=
  String.eqb language "python" || String.eqb language "javascript".

(** Modelled from the spec: a region of the code matched by a rule of
    [detector.py], as the offset of its first character and its length. *)
Record Span : Type := mkSpan { offset : nat; extent : nat }.

(** Modelled from the spec: a rule of [detector.py]'s catalog (section 3).
    [matcher] is the rule's pattern as a function from the code to the
    regions it matches, [None] when evaluating it fails; [exclusion], when
    present, recognises the safe usage on the matched text. *)
Record Rule : Type := mkRule {
  id : string;
  ruleLanguage : string;
  category : string;
  matcher : string -> option (list Span);
  exclusion : option (string -> bool);
  ruleSeverity : Severity;
  explanation_template : string -> string;
  patch_template : string -> string
}.

(** Modelled from the spec: [rulesFor] of [detector.py] (section 4.1), the
    rules of a language in declaration order, each with its position in the
    catalog; empty for a language without rules. *)
Definition rulesFor (catalog : list Rule) (language : string) : list (nat * Rule) :=
  filter (fun entry => String.eqb (ruleLanguage (snd entry)) language = true)
         (imap (fun i r => (i, r)) catalog).

(** Modelled from the spec: the 1-based line of the character at [pos]
    (step 2 of [detector.py]'s algorithm), one more than the number of line
    feeds before it. *)
Fixpoint lineOf (code : string) (pos : nat) : nat :=
  match pos, code with
  | S pos', String a rest =>
      (if Ascii.eqb a "010" then 1 else 0) + lineOf rest pos'
  | _, _ => 1
  end.

(** Modelled from the spec: the lines a matched region touches, ascending
    and without repetition (the [lines] of a finding of [detector.py]). *)
Definition linesOf (code : string) (s : Span) : list nat :=
  let first := lineOf code (offset s) in
  let last := lineOf code (offset s + extent s - 1) in
  seq first (S (last - first)).

(** Modelled from the spec: a candidate of [detector.py] (step 3), one
    match of one rule. *)
Record Candidate : Type := mkCandidate {
  ruleIndex : nat;
  rule : Rule;
  span : Span;
  candidateLines : list nat;
  matched : string
}.

(** Modelled from the spec: the first line of a candidate, the second key
    of [detector.py]'s sort (step 7). *)
Definition firstLine (c : Candidate) : nat := hd 0 (candidateLines c).

(** Modelled from the spec: step 3 of [detector.py] for one rule; a matcher
    that fails contributes nothing. *)
Definition candidatesOfRule (code : string) (entry : nat * Rule) : list Candidate :=
  match matcher (snd entry) code with
  | None => []
  | Some spans =>
      map (fun s => mkCandidate (fst entry) (snd entry) s (linesOf code s)
                      (substring (offset s) (extent s) code))
          spans
  end.

(** Modelled from the spec: step 4 of [detector.py], the candidates whose
    matched text is not the safe usage. *)
Definition notExcluded (c : Candidate) : bool :=
  match exclusion (rule c) with
  | Some guard => negb (guard (matched c))
  | None => true
  end.

(** Modelled from the spec: two candidates of [detector.py] on the
    identical region (step 5). *)
Definition sameSpan (a b : Candidate) : bool :=
  Nat.eqb (offset (span a)) (offset (span b)) &&
  Nat.eqb (extent (span a)) (extent (span b)).

(** Modelled from the spec: [other] wins the region over [c] in
    [detector.py] (step 5), by a higher severity, or by the same severity
    and an earlier declaration. *)
Definition beats (c other : Candidate) : bool :=
  sameSpan c other &&
  (Nat.ltb (rank (ruleSeverity (rule c))) (rank (ruleSeverity (rule other))) ||
   (Nat.eqb (rank (ruleSeverity (rule c))) (rank (ruleSeverity (rule other))) &&
    Nat.ltb (ruleIndex other) (ruleIndex c))).

(** Modelled from the spec: step 5 of [detector.py], one candidate for each
    region. *)
Definition deduplicate (cs : list Candidate) : list Candidate :=
  filter (fun c => existsb (beats c) cs = false) cs.

(** Modelled from the spec: the order of [detector.py]'s sort (step 7), [a]
    may come before [b]. *)
Definition comesBefore (a b : Candidate) : bool :=
  let ra := rank (ruleSeverity (rule a)) in
  let rb := rank (ruleSeverity (rule b)) in
  Nat.ltb rb ra ||
  (Nat.eqb ra rb &&
   (Nat.ltb (firstLine a) (firstLine b) ||
    (Nat.eqb (firstLine a) (firstLine b) && Nat.leb (ruleIndex a) (ruleIndex b)))).

(** Modelled from the spec: the order of [detector.py]'s sort as a
    proposition: severity descending, then first line ascending among equal
    severities, then declaration order. *)
Definition ordered (a b : Candidate) : Prop :=
  rank (ruleSeverity (rule b)) <= rank (ruleSeverity (rule a)) /\
  (rank (ruleSeverity (rule a)) = rank (ruleSeverity (rule b)) ->
   firstLine a <= firstLine b /\
   (firstLine a = firstLine b -> ruleIndex a <= ruleIndex b)).

(** Modelled from the spec: one step of [detector.py]'s sort (step 7),
    putting [c] before the first candidate it may come before. *)
Fixpoint insertSorted (c : Candidate) (cs : list Candidate) : list Candidate :=
  match cs with
  | [] => [c]
  | d :: rest => if comesBefore c d then c :: d :: rest else d :: insertSorted c rest
  end.

(** Modelled from the spec: the sort of [detector.py] (step 7), a stable
    insertion sort. *)
Definition sortCandidates (cs : list Candidate) : list Candidate :=
  foldr insertSorted [] cs.

(** Modelled from the spec: step 6 of [detector.py], the finding of a
    surviving candidate. *)
Definition toFinding (c : Candidate) : Finding :=
  mkFinding (category (rule c)) (severityLabel (ruleSeverity (rule c)))
            (Some (map Z.of_nat (candidateLines c)))
            (explanation_template (rule c) (matched c))
            (patch_template (rule c) (matched c)).

(** Modelled from the spec: steps 2 to 7 of [detector.py], the ranked
    candidates of a code fragment. *)
Definition ranked (catalog : list Rule) (code language : string) : list Candidate :=
  sortCandidates
    (deduplicate
       (filter (fun c => notExcluded c = true)
          (concat (map (candidatesOfRule code) (rulesFor catalog language))))).

(** Modelled from the spec: what a call of [detector.py] answers, the
    explicit unsupported-language signal (section 7) or a response. *)
Inductive Outcome : Type :=
| UnsupportedLanguage (language : string)
| Answer (response : Response).

(** Modelled from the spec: [analyze] of [detector.py] (section 4.2). *)
Definition analyze (catalog : list Rule) (code language : string) : Outcome :=
  if supported language then
    Answer (mkResponse language (Some (map toFinding (ranked catalog code language))))
  else UnsupportedLanguage language.

(** Modelled from the spec: the response of [detector.py] when it fails as
    a whole (sections 3 and 7), a single sentinel finding that carries the
    failure message. *)
Definition failure (language message : string) : Response :=
  mkResponse language (Some [mkFinding "Error" "N/A" (Some []) message ""]).

(** A pattern that matches every occurrence of a fixed text. *)
Definition occurrences (needle code : string) : option (list Span) :=
  Some (map (fun i => mkSpan i (String.length needle))
          (filter (fun i =>
                     String.prefix needle
                       (substring i (String.length code - i) code) = true)
             (seq 0 (String.length code)))).

(** A small catalog to run the engine on. *)
Definition sampleCatalog : list Rule :=
  [ mkRule "py-pickle" "python" "Insecure Deserialization"
      (occurrences "pickle.loads(") None High
      (fun text => "Untrusted data reaches " +:+ text)
      (fun _ => "json.loads(data)");
    mkRule "py-eval" "python" "Code Injection"
      (occurrences "eval(") None Critical
      (fun text => "Arbitrary code reaches " +:+ text)
      (fun _ => "ast.literal_eval(value)");
    mkRule "js-eval" "javascript" "Code Injection"
      (occurrences "eval(") None Critical
      (fun text => "Arbitrary code reaches " +:+ text)
      (fun _ => "JSON.parse(value)") ].

(** Two lines: a [pickle.loads] call, then an [eval] call. *)
Definition sampleCode : string :=
  "pickle.loads(data)" +:+ String "010" "eval(user_input)".

End Engine.

(** ** Notions used to state further properties of the extension *)

(** What the five replacements of [escapeHtml] make of one character. *)
Definition escapeChar (a : ascii) : string :=
  if Ascii.eqb a "&" then "&amp;"
  else if Ascii.eqb a "<" then "&lt;"
  else if Ascii.eqb a ">" then "&gt;"
  else if Ascii.eqb a "034" then "&quot;"
  else if Ascii.eqb a "'" then "&#039;"
  else String a "".

(** Every character replaced by its entity, in one pass. *)
Fixpoint escapeChars (s : string) : string :=
  match s with
  | EmptyString => EmptyString
  | String a rest => escapeChar a +:+ escapeChars rest
  end.

(** The five replacements of [escapeHtml] in a row, on a string. *)
Definition fiveReplacements (s : string) : string :=
  replaceAll "'" "&#039;"
    (replaceAll "034" "&quot;"
       (replaceAll ">" "&gt;"
          (replaceAll "<" "&lt;"
             (replaceAll "&" "&amp;" s)))).

(** A text without any of the five characters [escapeHtml] replaces. *)
Fixpoint plainText (s : string) : bool :=
  match s with
  | EmptyString => true
  | String a rest =>
      negb (Ascii.eqb a "&" || Ascii.eqb a "<" || Ascii.eqb a ">" ||
            Ascii.eqb a "034" || Ascii.eqb a "'")
      && plainText rest
  end.

(** The template text among the pieces of a page, in order. *)
Definition litTexts (cs : list Chunk) : list string :=
  omap (fun c => match c with Lit s => Some s | _ => None end) cs.

(** The fields of a finding that its card passes to [escapeHtml], in the
    order of the template. *)
Definition escapedFields (vuln : Finding) : list string :=
  [vulnerability vuln] ++
  (let text := lineText (default [] (lines vuln)) in
   if truthy (JsString text) then [text] else []) ++
  [severity vuln; explanation vuln; patch vuln].

(** A machine where [python] starts and never ends. *)
Definition pythonHangs : Spawner := fun _ => [StdoutData "{"].

(** The candidates a request gets to: each one up to and including the
    first whose child emits no ['error']. *)
Fixpoint triedCandidates (spawner : Spawner) (commands : list string) : list string :=
  match commands with
  | [] => []
  | pythonCmd :: rest =>
      pythonCmd ::
      (if Nat.eqb (errorCount (spawner pythonCmd)) 0 then []
       else triedCandidates spawner rest)
  end.


(** ** The launcher and the command, with the order of events left open

    Node fixes the order of the events of one child, not the order between
    the events of different children.  Here a request is run on a schedule
    that names, step by step, the child whose next event is delivered.  The
    renderer may throw, as [getResultsHtml] does on a parsed value that is
    not a response of the protocol, and the panel is created before the
    renderer is called, as in [showResultsPanel]. *)
Module Scheduled.

(** A child that was started: the index of the call of [tryPythonCommand]
    that started it, the events it has still to emit, and its two
    accumulators. *)
Record Running : Type := mkRunning {
  runIndex : nat;
  pending : list ProcEvent;
  stdout : string;
  stderr : string
}.

(** What a call of the renderer does: it returns the page or throws. *)
Inductive Rendered : Type :=
| Page (html : string)
| Thrown (message : string).

(** The calls on [vscode.window] and on the panel. *)
Inductive WindowCall : Type :=
| ShowErrorMessage (message : string)
| ShowWarningMessage (message : string)
| WithProgress (title : string)
| CreateWebviewPanel (viewType title : string)
| SetWebviewHtml (html : string).

(** The launcher's own rejection among the calls of [reject]. *)
Definition isNotInstalled {R : Type} (s : Settlement R) : bool :=
  match s with
  | Rejected message => String.eqb message notInstalled
  | Resolved _ => false
  end.

(** How often the launcher's own rejection was called. *)
Fixpoint countNotInstalled {R : Type} (calls : list (Settlement R)) : nat :=
  match calls with
  | [] => 0
  | s :: rest => (if isNotInstalled s then 1 else 0) + countNotInstalled rest
  end.

(** The child has no event left. *)
Definition finished (child : Running) : bool :=
  match pending child with [] => true | _ :: _ => false end.

(** The next event of the child is ['error'].  The code gives a child no
    other cause to emit it than a failed start. *)
Definition errorNext (child : Running) : bool :=
  match pending child with ErrorEvent :: _ => true | _ => false end.

Section Launcher.
Context {R : Type} `{Host R}.
Variable spawner : Spawner.
Variable commands : list string.
Variable detectorPath : string.
Variable code : string.
Variable language : JsValue.

(** [tryPythonCommand(commands, index, ...)]: the call itself, and the
    events of the child it starts joining those awaited. *)
Definition tryCandidate (index : nat) (st : World R * list Running) :
    World R * list Running :=
  (tryPythonCommand commands detectorPath code language index (fst st),
   snd st ++
   match commands !! index with
   | Some pythonCmd => [mkRunning index (spawner pythonCmd) "" ""]
   | None => []
   end).

(** The handlers of the [k]-th child run on its next event.  A step that
    names no child, or a child without events left, does nothing. *)
Definition deliverNext (k : nat) (st : World R * list Running) :
    World R * list Running :=
  match snd st !! k with
  | None => st
  | Some child =>
      match pending child with
      | [] => st
      | StdoutData data :: rest =>
          (fst st,
           <[k := mkRunning (runIndex child) rest (stdout child +:+ data)
                    (stderr child)]> (snd st))
      | StderrData data :: rest =>
          (fst st,
           <[k := mkRunning (runIndex child) rest (stdout child)
                    (stderr child +:+ data)]> (snd st))
      | ErrorEvent :: rest =>
          tryCandidate (runIndex child + 1)
            (fst st,
             <[k := mkRunning (runIndex child) rest (stdout child)
                      (stderr child)]> (snd st))
      | CloseEvent exitCode :: rest =>
          (settle (onClose exitCode (stdout child) (stderr child)) (fst st),
           <[k := mkRunning (runIndex child) rest (stdout child)
                    (stderr child)]> (snd st))
      end
  end.

(** The steps of a schedule, in order. *)
Definition runSchedule (schedule : list nat) (st : World R * list Running) :
    World R * list Running :=
  foldl (fun st0 k => deliverNext k st0) st schedule.

(** A whole request on a schedule: the first call of [tryPythonCommand],
    then the events as the schedule orders them. *)
Definition runRequest (schedule : list nat) : World R * list Running :=
  runSchedule schedule (tryCandidate 0 (newWorld, [])).

(** The schedule follows Node in this: the ['error'] of a failed start is
    emitted in the tick after the call of [spawn], ahead of every event of a
    stream or of an exit.  So while some child has ['error'] as its next
    event, the step delivers such an ['error']. *)
Fixpoint startFailuresFirst (schedule : list nat) (st : World R * list Running) :
    bool :=
  match schedule with
  | [] => true
  | k :: rest =>
      (if existsb errorNext (snd st) then
         match snd st !! k with
         | Some child => errorNext child
         | None => false
         end
       else true)
      && startFailuresFirst rest (deliverNext k st)
  end.

(** Children that are the first candidates in order, each holding what is
    left of its events, of which the first [errored] have emitted their
    ['error'] and the others have not. *)
Definition tracked (errored : nat) (live : list Running) : Prop :=
  forall k child, live !! k = Some child ->
    runIndex child = k /\
    exists pythonCmd delivered,
      commands !! k = Some pythonCmd /\
      spawner pythonCmd = delivered ++ pending child /\
      errorCount delivered = (if Nat.ltb k errored then 1 else 0).

(** The state of a request in which the first [errored] candidates have
    emitted their ['error'] and none of the others has: the children are the
    candidates up to the first that has not, the launcher's rejection was
    called once if every candidate has emitted ['error'] and never
    otherwise, and the promise carries the first call. *)
Definition chained (errored : nat) (st : World R * list Running) : Prop :=
  errored <= length commands /\
  length (snd st) = Nat.min (errored + 1) (length commands) /\
  children (fst st) =
    map (fun pythonCmd =>
           mkChild pythonCmd [detectorPath]
             [StdinWrite (JSON_stringify [("code", JsString code);
                                          ("language", language)]);
              StdinEnd])
        (take (length (snd st)) commands) /\
  tracked errored (snd st) /\
  countNotInstalled (calls (fst st)) =
    (if Nat.eqb errored (length commands) then 1 else 0) /\
  settled (fst st) = head (calls (fst st)).

(** The state of a request in which no child has got further than failing
    to start: either the launcher's rejection already settled the promise,
    or the promise is open, the children before the last have had their
    ['error'] delivered and nothing else, and the last has had none of its
    events delivered. *)
Definition onlyFailedStarts (st : World R * list Running) : Prop :=
  settled (fst st) = Some (Rejected notInstalled) \/
  (settled (fst st) = None /\
   exists last, length (snd st) = last + 1 /\
     forall k child, snd st !! k = Some child ->
       runIndex child = k /\
       exists pythonCmd, commands !! k = Some pythonCmd /\
         pending child =
           (if Nat.ltb k last then tail (spawner pythonCmd) else spawner pythonCmd)).

End Launcher.

(** Every event of every child started has been delivered. *)
Definition quiescent {R : Type} (st : World R * list Running) : bool :=
  forallb finished (snd st).

(** [analyzeCode(code, language, context)] on a schedule. *)
Definition analyzeCode {R : Type} `{Host R} (spawner : Spawner)
    (schedule : list nat) (code : string) (language : JsValue)
    (extensionPath : string) : World R * list Running :=
  let detectorPath := path_join extensionPath "detector.py" in
  let pythonCommands := ["python"; "python3"; "py"] in
  runRequest spawner pythonCommands detectorPath code language schedule.

(** [showResultsPanel(result, context)]: the panel is created, then the
    renderer is called; what it throws passes to the caller. *)
Definition showResultsPanel {R : Type} (render : R -> Rendered) (result : R) :
    list WindowCall * option string :=
  match render result with
  | Page html =>
      ([CreateWebviewPanel "vulnDetectionResults" "Security Analysis Results";
        SetWebviewHtml html], None)
  | Thrown message =>
      ([CreateWebviewPanel "vulnDetectionResults" "Security Analysis Results"],
       Some message)
  end.

(** The body of the [try] and its [catch], once the promise is settled. *)
Definition afterAnalysis {R : Type} (render : R -> Rendered)
    (outcome : option (Settlement R)) : list WindowCall :=
  match outcome with
  | Some (Resolved result) =>
      let '(calls, thrown) := showResultsPanel render result in
      calls ++
      match thrown with
      | Some message => [ShowErrorMessage ("Analysis failed: " +:+ message)]
      | None => []
      end
  | Some (Rejected message) => [ShowErrorMessage ("Analysis failed: " +:+ message)]
  | None => []
  end.

(** What one run of the command did. *)
Record CommandRun (R : Type) : Type := mkCommandRun {
  ui : list WindowCall;
  request : option (World R * list Running)
}.
Arguments mkCommandRun {R} ui request.
Arguments ui {R} c.
Arguments request {R} c.

(** The handler of [vulnDetection.analyze], on a schedule. *)
Definition analyzeCommand {R : Type} `{Host R} (render : R -> Rendered)
    (spawner : Spawner) (schedule : list nat) (extensionPath : string)
    (activeTextEditor : option Editor) : CommandRun R :=
  match activeTextEditor with
  | None => mkCommandRun [ShowErrorMessage "No active editor found."] None
  | Some editor =>
      let selectedText := selectedText editor in
      if negb (truthy (JsString selectedText)) || String.eqb (trim selectedText) "" then
        mkCommandRun [ShowErrorMessage "Please select some code to analyze."] None
      else
        let languageId := languageId editor in
        let language := jsGet languageMap languageId in
        if negb (truthy language) then
          mkCommandRun
            [ShowWarningMessage
               ("Language " +:+ dq +:+ languageId +:+ dq +:+
                " is not supported. Only Python and JavaScript are currently supported.")]
            None
        else
          let st := analyzeCode spawner schedule selectedText language extensionPath in
          mkCommandRun
            (WithProgress "Analyzing code for vulnerabilities..." ::
             afterAnalysis render (settled (fst st)))
            (Some st)
  end.

(** An order of events on a machine without any interpreter: the three
    ['error'] events, then the three ['close'] events. *)
Definition errorsThenCloses : list nat := [0; 1; 2; 0; 1; 2].

End Scheduled.

(** * Properties *)

(** ** Markup characters *)

Lemma markupFree_app (s t : string) :
  markupFree (s +:+ t) = markupFree s && markupFree t.
Proof.
  induction s as [|a s IH]; simpl; [reflexivity|].
  rewrite IH. apply andb_assoc.
Qed.

Lemma absent_app (c : ascii) (s t : string) :
  absent c (s +:+ t) = absent c s && absent c t.
Proof.
  induction s as [|a s IH]; simpl; [reflexivity|].
  rewrite IH. apply andb_assoc.
Qed.

Lemma markupFree_absent (s : string) :
  markupFree s =
  absent "<" s && absent ">" s && absent "034" s && absent "'" s.
Proof.
  induction s as [|a s IH]; simpl; [reflexivity|].
  rewrite IH. unfold isMarkupChar.
  destruct (Ascii.eqb a "<"), (Ascii.eqb a ">"), (Ascii.eqb a "034"),
    (Ascii.eqb a "'"); simpl; try reflexivity;
    repeat (rewrite ?andb_false_r, ?andb_true_r; simpl); try reflexivity.
  all: destruct (absent "<" s), (absent ">" s), (absent "034" s),
    (absent "'" s); reflexivity.
Qed.

(** Replacing every [c] leaves no [c], when the replacement has none. *)
Lemma replaceAll_removes (c : ascii) (by_ s : string) :
  absent c by_ = true -> absent c (replaceAll c by_ s) = true.
Proof.
  intros Hby. induction s as [|a s IH]; simpl; [reflexivity|].
  destruct (Ascii.eqb a c) eqn:E.
  - rewrite absent_app, Hby, IH. reflexivity.
  - simpl. rewrite E, IH. reflexivity.
Qed.

(** Replacing [c] brings in no [d], when the replacement has none. *)
Lemma replaceAll_keeps (c d : ascii) (by_ s : string) :
  absent d by_ = true -> absent d s = true ->
  absent d (replaceAll c by_ s) = true.
Proof.
  intros Hby. induction s as [|a s IH]; simpl; [reflexivity|].
  intros Hs. apply andb_true_iff in Hs as [Ha Hs].
  destruct (Ascii.eqb a c).
  - rewrite absent_app, Hby, (IH Hs). reflexivity.
  - simpl. rewrite Ha, (IH Hs). reflexivity.
Qed.

Lemma escapeHtml_markupFree (str : JsValue) : markupFree (escapeHtml str) = true.
Proof.
  rewrite markupFree_absent. unfold escapeHtml.
  set (s1 := replaceAll "&" "&amp;" (jsToString str)).
  set (s2 := replaceAll "<" "&lt;" s1).
  set (s3 := replaceAll ">" "&gt;" s2).
  set (s4 := replaceAll "034" "&quot;" s3).
  assert (H2 : absent "<" s2 = true) by (apply replaceAll_removes; reflexivity).
  assert (H3a : absent "<" s3 = true) by (apply replaceAll_keeps; [reflexivity|exact H2]).
  assert (H3 : absent ">" s3 = true) by (apply replaceAll_removes; reflexivity).
  assert (H4a : absent "<" s4 = true) by (apply replaceAll_keeps; [reflexivity|exact H3a]).
  assert (H4b : absent ">" s4 = true) by (apply replaceAll_keeps; [reflexivity|exact H3]).
  assert (H4 : absent "034" s4 = true) by (apply replaceAll_removes; reflexivity).
  rewrite (replaceAll_keeps "'" "<" "&#039;" s4 eq_refl H4a).
  rewrite (replaceAll_keeps "'" ">" "&#039;" s4 eq_refl H4b).
  rewrite (replaceAll_keeps "'" "034" "&#039;" s4 eq_refl H4).
  rewrite (replaceAll_removes "'" "&#039;" s4 eq_refl).
  reflexivity.
Qed.

(** ** Values interpolated without escaping *)

Lemma string_of_uint_markupFree (d : Decimal.uint) :
  markupFree (NilEmpty.string_of_uint d) = true.
Proof. induction d; simpl; auto. Qed.

Lemma showZ_markupFree (z : Z) : markupFree (showZ z) = true.
Proof.
  unfold showZ, NilZero.string_of_int, NilZero.string_of_uint.
  destruct (Z.to_int z) as [d|d]; destruct d; simpl;
    auto using string_of_uint_markupFree.
Qed.

(** The own values of [severityColors]. *)
Lemma severityColors_lookup (key v : string) :
  severityColors !! key = Some v ->
  v ∈ ["#dc2626"; "#ea580c"; "#ca8a04"; "#16a34a"; "#22c55e"; "#6b7280"].
Proof.
  unfold severityColors. rewrite !lookup_insert, lookup_empty.
  repeat case_decide; intros ?; simplify_eq; set_solver.
Qed.

Lemma inherited_markupFree (name : string) :
  name ∈ objectPrototypeKeys -> markupFree (jsToString (JsInherited name)) = true.
Proof.
  unfold objectPrototypeKeys. rewrite !elem_of_cons, elem_of_nil.
  intros H. repeat destruct H as [->|H]; try reflexivity. destruct H.
Qed.

(** The colour of a card is markup free whatever [severity] the response
    names, an inherited property included. *)
Lemma severityColor_markupFree (sev : string) :
  markupFree
    (jsToString (jsOr (jsGet severityColors sev) (JsString "#6b7280"))) = true.
Proof.
  unfold jsGet. destruct (severityColors !! sev) as [v|] eqn:E.
  - apply severityColors_lookup in E.
    rewrite !elem_of_cons, elem_of_nil in E.
    repeat destruct E as [->|E]; try reflexivity. destruct E.
  - case_bool_decide as Hin; [|reflexivity].
    unfold jsOr. simpl truthy. cbv iota. now apply inherited_markupFree.
Qed.

Lemma header_markupFree (results : list Finding) :
  markupFree (statusIcon (header results)) = true /\
  markupFree (statusText (header results)) = true /\
  markupFree (headerColor (header results)) = true.
Proof.
  unfold header. destruct (isError results); [repeat split|].
  destruct (hasVulnerabilities results); [|repeat split]. simpl.
  repeat split. rewrite !markupFree_app, showZ_markupFree.
  destruct (length results =? 1)%nat; reflexivity.
Qed.

Lemma cardChunks_safe (vulnCount index : nat) (vuln : Finding) :
  forallb chunkSafe (cardChunks vulnCount index vuln) = true.
Proof.
  unfold cardChunks. rewrite !forallb_app.
  destruct (1 <? vulnCount)%nat; destruct (truthy _); simpl;
    rewrite ?showZ_markupFree, ?escapeHtml_markupFree,
      ?severityColor_markupFree; reflexivity.
Qed.

Lemma forallb_concat {A : Type} (f : A -> bool) (ls : list (list A)) :
  forallb f (concat ls) = forallb (forallb f) ls.
Proof.
  induction ls as [|l ls IH]; simpl; [reflexivity|].
  now rewrite forallb_app, IH.
Qed.

Lemma imap_all_safe (g : nat -> Finding -> list Chunk) (results : list Finding) :
  (forall i f, forallb chunkSafe (g i f) = true) ->
  forallb (forallb chunkSafe) (imap g results) = true.
Proof.
  revert g. induction results as [|f fs IH]; intros g Hg; simpl; [reflexivity|].
  rewrite Hg. simpl. apply IH. intros i x. apply Hg.
Qed.

Lemma cardsChunks_safe (results : list Finding) :
  forallb chunkSafe (cardsChunks results) = true.
Proof.
  unfold cardsChunks. destruct (_ || _); [|reflexivity].
  rewrite forallb_concat. apply imap_all_safe. intros i f.
  apply cardChunks_safe.
Qed.

(** ** Rendering *)

(** C9. [escapeHtml] returns a string without [<], [>], double quote or
    single quote, whatever it is given.  In both versions of
    [getResultsHtml] every piece of the page that is not template text is
    free of these characters, and the response fields of a card
    (vulnerability, line text, severity, explanation, patch) are the pieces
    that went through [escapeHtml]: no response can add markup to the
    panel. *)
Theorem escapeHtml_keeps_markup_out :
  (forall str : JsValue, markupFree (escapeHtml str) = true) /\
  (forall result : Response,
      forallb chunkSafe (getResultsChunks result) = true) /\
  (forall (vulnCount index : nat) (vuln : Finding),
      escapedTexts (cardChunks vulnCount index vuln) =
      map (fun field => escapeHtml (JsString field))
        ([vulnerability vuln] ++
         (let text := lineText (default [] (lines vuln)) in
          if truthy (JsString text) then [text] else []) ++
         [severity vuln; explanation vuln; patch vuln])) /\
  (forall result : Legacy.Result,
      forallb chunkSafe (Legacy.getResultsChunks result) = true /\
      escapedTexts (Legacy.getResultsChunks result) =
      map (fun field => escapeHtml (JsString field))
        [Legacy.vulnerability result; Legacy.severity result;
         Legacy.explanation result; Legacy.patch result]).
Proof.
  split; [exact escapeHtml_markupFree|]. split; [|split].
  - intros result. unfold getResultsChunks. rewrite !forallb_app.
    destruct (header_markupFree (default [] (results result))) as (Hi & Ht & Hc).
    simpl. rewrite Hi, Ht, Hc, cardsChunks_safe. reflexivity.
  - intros vulnCount index vuln. unfold cardChunks.
    destruct (1 <? vulnCount)%nat; destruct (truthy _); reflexivity.
  - intros result. split; [|reflexivity].
    unfold Legacy.getResultsChunks. simpl.
    rewrite !escapeHtml_markupFree, !severityColor_markupFree.
    unfold Legacy.statusIcon, Legacy.statusText.
    destruct (Legacy.isVulnerable result); [reflexivity|].
    destruct (String.eqb _ _); reflexivity.
Qed.

(** C2. A response whose [results] is empty (or missing) gets the safe
    presentation: the status reads "No vulnerabilities detected", the cards
    are the "Code Appears Safe" message, and the page does not say
    "Analysis Error"; it is not classified as an error. *)
Theorem empty_results_render_safe (result : Response) :
  default [] (results result) = [] ->
  isError (default [] (results result)) = false /\
  header (default [] (results result)) =
    mkHeader "‚úÖ" "No vulnerabilities detected" "#22c55e" /\
  cardsChunks (default [] (results result)) = [Lit safeMessageTpl0] /\
  occursIn "Code Appears Safe" safeMessageTpl0 = true /\
  occursIn "No vulnerabilities detected" (getResultsHtml result) = true /\
  occursIn "Code Appears Safe" (getResultsHtml result) = true /\
  occursIn "Analysis Error" (getResultsHtml result) = false.
Proof.
  intros Hempty. unfold getResultsHtml, getResultsChunks. rewrite Hempty.
  repeat split; vm_compute; reflexivity.
Qed.

Lemma empty_results_render_safe_witness :
  let result := mkResponse "python" (Some []) in
  default [] (results result) = [] /\
  occursIn "Code Appears Safe" (getResultsHtml result) = true.
Proof.
  split; [reflexivity|].
  apply (empty_results_render_safe (mkResponse "python" (Some []))).
  reflexivity.
Defined.

Lemma isError_first (rs : list Finding) :
  isError rs = true <->
  exists first rest, rs = first :: rest /\ vulnerability first = "Error".
Proof.
  destruct rs as [|f fs]; simpl.
  - split; [discriminate|]. intros (first & rest & Heq & _). discriminate.
  - rewrite String.eqb_eq. split.
    + intros Hv. exists f, fs. split; [reflexivity|exact Hv].
    + intros (first & rest & Heq & Hv). now inversion Heq; subst.
Qed.

Lemma header_error_iff (rs : list Finding) :
  header rs = mkHeader "‚ùå" "Analysis Error" "#6b7280" <-> isError rs = true.
Proof.
  unfold header. destruct (isError rs).
  - split; reflexivity.
  - split; [|discriminate].
    destruct (hasVulnerabilities rs); intros Heq;
      apply (f_equal headerColor) in Heq; discriminate.
Qed.

(** C3. A failing engine answers with exactly one finding, the sentinel with
    vulnerability "Error" and severity "N/A" whose explanation is the
    failure message.  The renderer shows the error header exactly for the
    responses whose first finding has vulnerability "Error"; the flat
    renderer of [src/extension.js] shows "Analysis Error" exactly when the
    result's vulnerability is "Error". *)
Theorem error_sentinel_classified (language message : string) :
  (exists sentinel,
      results (Engine.failure language message) = Some [sentinel] /\
      vulnerability sentinel = "Error" /\
      severity sentinel = "N/A" /\
      explanation sentinel = message) /\
  header (default [] (results (Engine.failure language message))) =
    mkHeader "‚ùå" "Analysis Error" "#6b7280" /\
  (forall result : Response,
      let rs := default [] (results result) in
      (isError rs = true <->
       exists first rest, rs = first :: rest /\ vulnerability first = "Error") /\
      (header rs = mkHeader "‚ùå" "Analysis Error" "#6b7280" <->
       isError rs = true)) /\
  (forall result : Legacy.Result,
      Legacy.statusText result = "Analysis Error" <->
      Legacy.vulnerability result = "Error").
Proof.
  split; [|split; [reflexivity|split]].
  - eexists. repeat split.
  - intros result rs. split; [apply isError_first|apply header_error_iff].
  - intros result. unfold Legacy.statusText, Legacy.isVulnerable.
    destruct (String.eqb (Legacy.vulnerability result) "Error") eqn:E.
    + apply String.eqb_eq in E. rewrite andb_false_r. split; auto.
    + apply String.eqb_neq in E. rewrite andb_true_r.
      destruct (String.eqb (Legacy.vulnerability result) "None Detected");
        simpl; split; [discriminate|contradiction|discriminate|contradiction].
Qed.

(** ** The launcher *)

Section LauncherFacts.
Context {R : Type} `{Host R}.
Variable spawner : Spawner.
Variable commands : list string.
Variable detectorPath : string.
Variable code : string.
Variable language : JsValue.

Abbreviation tryNext := (tryPythonCommand commands detectorPath code language).
Abbreviation deliverAt := (deliver commands detectorPath code language).
Abbreviation runFrom := (runChildren spawner commands detectorPath code language).

Lemma onClose_resolved (exitCode : option Z) (stdout stderr : string) (result : R) :
  onClose exitCode stdout stderr = Resolved result <->
  exitCode = Some 0%Z /\ JSON_parse stdout = Some result.
Proof.
  unfold onClose. destruct exitCode as [[|p|p]|];
    try (split; [discriminate|intros [? _]; discriminate]).
  destruct (JSON_parse stdout) as [r|].
  - split; [intros [= ->]; auto|intros [_ [= ->]]; reflexivity].
  - split; [discriminate|intros [_ ?]; discriminate].
Qed.

Lemma onClose_failed (exitCode : option Z) (stdout stderr : string) :
  exitCode <> Some 0%Z ->
  onClose exitCode stdout stderr =
  Rejected ("Detector exited with code " +:+ showExitCode exitCode +:+ ": " +:+ stderr).
Proof.
  unfold onClose. destruct exitCode as [[|p|p]|]; try reflexivity.
  intros Hne. now destruct Hne.
Qed.

Lemma onClose_unparseable (stdout stderr : string) :
  JSON_parse stdout = None ->
  onClose (Some 0%Z) stdout stderr =
  Rejected ("Failed to parse detector output: " +:+ stdout).
Proof. unfold onClose. now intros ->. Qed.

Lemma append_assoc (a b c : string) : (a +:+ b) +:+ c = a +:+ (b +:+ c).
Proof.
  induction a as [|x a IH]; [reflexivity|].
  change (String x ((a +:+ b) +:+ c) = String x (a +:+ (b +:+ c))).
  now rewrite IH.
Qed.

Lemma append_empty_r (a : string) : a +:+ "" = a.
Proof.
  induction a as [|x a IH]; [reflexivity|].
  change (String x (a +:+ "") = String x a). now rewrite IH.
Qed.

(** The data events only fill the two accumulators. *)
Lemma deliver_data (index : nat) (chunks : list (Stream * string))
    (rest : list ProcEvent) (stdout stderr : string) (w : World R) (retries : nat) :
  deliverAt index (map dataEvent chunks ++ rest) stdout stderr w retries =
  deliverAt index rest (stdout +:+ received Stdout chunks)
    (stderr +:+ received Stderr chunks) w retries.
Proof.
  revert stdout stderr.
  induction chunks as [|[[] data] chunks IH]; intros stdout stderr; simpl.
  - now rewrite !append_empty_r.
  - now rewrite IH, append_assoc.
  - now rewrite IH, append_assoc.
Qed.

(** Children that were never started have no events. *)
Lemma runChildren_none (levels index : nat) (w : World R) :
  runFrom levels index 0 w = w.
Proof.
  revert index. induction levels as [|levels IH]; intros index; simpl;
    [reflexivity|].
  destruct (commands !! index); [apply IH|reflexivity].
Qed.

Lemma deliver_retries (index : nat) (events : list ProcEvent)
    (stdout stderr : string) (w : World R) (retries : nat) :
  snd (deliverAt index events stdout stderr w retries) = retries + errorCount events.
Proof.
  revert stdout stderr w retries.
  induction events as [|[data|data| |exitCode] events IH];
    intros stdout stderr w retries; simpl; rewrite ?IH; lia.
Qed.

(** A property of the world that every call of [resolve], [reject] and
    [tryPythonCommand] keeps holds at the end of the request. *)
Lemma deliver_keeps (P : World R -> Prop) :
  (forall s w, P w -> P (settle s w)) ->
  (forall i w, P w -> P (tryNext i w)) ->
  forall index events stdout stderr w retries,
    P w -> P (fst (deliverAt index events stdout stderr w retries)).
Proof.
  intros Hsettle Htry index events.
  induction events as [|[data|data| |exitCode] events IH];
    intros stdout stderr w retries Hw; simpl; auto.
Qed.

Lemma iter_keeps (P : World R -> Prop) (index : nat) (events : list ProcEvent) :
  (forall s w, P w -> P (settle s w)) ->
  (forall i w, P w -> P (tryNext i w)) ->
  forall count w,
    P w ->
    P (fst (Nat.iter count
              (fun '(w0, r0) => deliverAt index events "" "" w0 r0) (w, 0))).
Proof.
  intros Hsettle Htry count w Hw.
  induction count as [|count IH]; simpl; [exact Hw|].
  destruct (Nat.iter count _ _) as [w1 r1]. simpl in IH.
  now apply deliver_keeps.
Qed.

Lemma runChildren_keeps (P : World R -> Prop) :
  (forall s w, P w -> P (settle s w)) ->
  (forall i w, P w -> P (tryNext i w)) ->
  forall levels index count w, P w -> P (runFrom levels index count w).
Proof.
  intros Hsettle Htry levels.
  induction levels as [|levels IH]; intros index count w Hw; simpl; [exact Hw|].
  destruct (commands !! index) as [pythonCmd|]; [|exact Hw].
  pose proof (iter_keeps P index (spawner pythonCmd) Hsettle Htry count w Hw) as Hiter.
  destruct (Nat.iter count _ _) as [w1 r1]. apply IH. exact Hiter.
Qed.


(** The child started for the candidate [pythonCmd]. *)
Abbreviation childOf pythonCmd :=
  (mkChild pythonCmd [detectorPath]
     [StdinWrite (JSON_stringify [("code", JsString code); ("language", language)]);
      StdinEnd]).

Lemma settle_settled (s : Settlement R) (w : World R) : is_Some (settled (settle s w)).
Proof. unfold settle. simpl. destruct (settled w); eauto. Qed.

Lemma settle_keeps_settled (s : Settlement R) (w : World R) :
  is_Some (settled w) -> is_Some (settled (settle s w)).
Proof. intros _. apply settle_settled. Qed.

Lemma tryNext_keeps_settled (i : nat) (w : World R) :
  is_Some (settled w) -> is_Some (settled (tryNext i w)).
Proof.
  unfold tryPythonCommand. destruct (commands !! i); [auto|].
  apply settle_keeps_settled.
Qed.

(** Past the end of the list the call rejects, and does nothing else. *)
Lemma tryNext_exhausted (i : nat) (w : World R) :
  length commands <= i -> tryNext i w = settle (Rejected notInstalled) w.
Proof.
  intros Hi. unfold tryPythonCommand.
  now rewrite (proj2 (lookup_ge_None commands i) Hi).
Qed.

Lemma deliver_settled_mono (index : nat) (events : list ProcEvent)
    (stdout stderr : string) (w : World R) (retries : nat) :
  is_Some (settled w) ->
  is_Some (settled (fst (deliverAt index events stdout stderr w retries))).
Proof.
  apply (deliver_keeps (fun w => is_Some (settled w))).
  - intros s w0. apply settle_keeps_settled.
  - intros i w0. apply tryNext_keeps_settled.
Qed.

(** A ['close'] settles the promise, if nothing did before. *)
Lemma deliver_closes (index : nat) (events : list ProcEvent)
    (stdout stderr : string) (w : World R) (retries : nat) :
  closes events = true ->
  is_Some (settled (fst (deliverAt index events stdout stderr w retries))).
Proof.
  revert stdout stderr w retries.
  induction events as [|[data|data| |exitCode] events IH];
    intros stdout stderr w retries Hc; simpl in *; auto; [discriminate|].
  apply deliver_settled_mono, settle_settled.
Qed.

(** So does an ['error'] of the last candidate. *)
Lemma deliver_error_exhausted (index : nat) (events : list ProcEvent)
    (stdout stderr : string) (w : World R) (retries : nat) :
  1 <= errorCount events -> length commands <= index + 1 ->
  is_Some (settled (fst (deliverAt index events stdout stderr w retries))).
Proof.
  intros He Hlast. revert stdout stderr w retries He.
  induction events as [|[data|data| |exitCode] events IH];
    intros stdout stderr w retries He; simpl in *; auto; [lia|].
  apply deliver_settled_mono. rewrite tryNext_exhausted by exact Hlast.
  apply settle_settled.
Qed.

(** The children a child's events start: one for each ['error'], all with
    the next candidate. *)
Lemma deliver_children (index : nat) (events : list ProcEvent)
    (stdout stderr : string) (w : World R) (retries : nat) :
  children (fst (deliverAt index events stdout stderr w retries)) =
  (children w ++
   match commands !! (index + 1) with
   | Some pythonCmd => replicate (errorCount events) (childOf pythonCmd)
   | None => []
   end)%list.
Proof.
  revert stdout stderr w retries.
  induction events as [|[data|data| |exitCode] events IH];
    intros stdout stderr w retries; simpl; rewrite ?IH; try reflexivity.
  - destruct (commands !! (index + 1)); now rewrite app_nil_r.
  - unfold tryPythonCommand.
    destruct (commands !! (index + 1)) as [pythonCmd|]; simpl.
    + now rewrite <- app_assoc.
    + reflexivity.
Qed.

Lemma betweenLevels_start : betweenLevels commands 0 1 (tryNext 0 newWorld).
Proof.
  unfold betweenLevels, tryPythonCommand.
  destruct (commands !! 0) as [pythonCmd|] eqn:E; simpl.
  - split; [lia|]. split; [lia|]. split; [reflexivity|]. split.
    + destruct commands as [|c cs]; [now rewrite lookup_nil in E|].
      change (Some c = Some pythonCmd) in E. now inversion E.
    + right. split; [reflexivity|]. now apply lookup_lt_Some in E.
  - apply lookup_ge_None in E.
    assert (commands = []) as -> by (destruct commands; simpl in *; [reflexivity|lia]).
    simpl. split; [lia|]. split; [lia|]. split; [intros _ Hlt; simpl in Hlt; lia|].
    split; [reflexivity|]. left. eauto.
Qed.

Lemma betweenLevels_step (index : nat) (pythonCmd : string) (w : World R) :
  commands !! index = Some pythonCmd ->
  errorCount (spawner pythonCmd) <= 1 ->
  closes (spawner pythonCmd) = true \/ 1 <= errorCount (spawner pythonCmd) ->
  betweenLevels commands index 1 w ->
  betweenLevels commands (index + 1) (errorCount (spawner pythonCmd))
    (fst (deliverAt index (spawner pythonCmd) "" "" w 0)).
Proof.
  intros Hcmd Hone Hends (_ & Hlen & Hrun & Hprefix & Hsettled).
  pose proof (lookup_lt_Some _ _ _ Hcmd) as Hlt.
  specialize (Hrun eq_refl Hlt).
  pose proof (deliver_children index (spawner pythonCmd) "" "" w 0) as Hch.
  set (w' := fst (deliverAt index (spawner pythonCmd) "" "" w 0)) in *.
  unfold betweenLevels. split; [exact Hone|].
  destruct (commands !! (index + 1)) as [nextCmd|] eqn:Enext.
  - pose proof (lookup_lt_Some _ _ _ Enext) as Hlt'.
    rewrite Hch, length_app, length_replicate, map_app, Hprefix, Hrun.
    split; [lia|]. split; [lia|]. split.
    + destruct (errorCount (spawner pythonCmd)) as [|[|n]]; simpl; [| |lia].
      * rewrite app_nil_r. f_equal. lia.
      * replace (index + 1 + 1) with (S (index + 1)) by lia.
        now rewrite (take_S_r _ _ _ Enext).
    + destruct Hends as [Hc|He].
      * left. now apply deliver_closes.
      * right. split; lia.
  - pose proof (proj1 (lookup_ge_None _ _) Enext) as Hge.
    rewrite Hch, app_nil_r. split; [lia|]. split; [lia|].
    split; [exact Hprefix|]. left.
    destruct Hends as [Hc|He].
    + now apply deliver_closes.
    + apply deliver_error_exhausted; lia.
Qed.

Lemma runChildren_betweenLevels (levels index count : nat) (w : World R) :
  (forall pythonCmd, pythonCmd ∈ commands -> errorCount (spawner pythonCmd) <= 1) ->
  (forall pythonCmd, pythonCmd ∈ commands ->
     closes (spawner pythonCmd) = true \/ 1 <= errorCount (spawner pythonCmd)) ->
  length commands <= levels + index ->
  betweenLevels commands index count w ->
  let w' := runFrom levels index count w in
  length (children w') <= length commands /\
  map childCommand (children w') = take (length (children w')) commands /\
  is_Some (settled w').
Proof.
  intros Hone Hends. revert index count w.
  induction levels as [|levels IH]; intros index count w Hfuel Hinv; simpl.
  - destruct Hinv as (Hc & Hlen & Hrun & Hprefix & Hsettled).
    split; [|split; [exact Hprefix|]].
    + rewrite <- (length_map childCommand), Hprefix, length_take. lia.
    + destruct Hsettled as [Hs|[_ Hlt]]; [exact Hs|simpl in Hfuel; lia].
  - destruct (commands !! index) as [pythonCmd|] eqn:Ecmd.
    + assert (Hin : pythonCmd ∈ commands) by (eapply list_elem_of_lookup_2; eauto).
      destruct Hinv as (Hc & Hlen & Hrun & Hprefix & Hsettled).
      destruct count as [|[|count]]; [| |lia]; simpl.
      * rewrite runChildren_none.
        split; [|split; [exact Hprefix|]].
        -- rewrite <- (length_map childCommand), Hprefix, length_take. lia.
        -- destruct Hsettled as [Hs|[Hone' _]]; [exact Hs|discriminate].
      * pose proof (betweenLevels_step index pythonCmd w Ecmd (Hone _ Hin)
                      (Hends _ Hin)) as Hstep.
        pose proof (deliver_retries index (spawner pythonCmd) "" "" w 0) as Hr.
        destruct (deliverAt index (spawner pythonCmd) "" "" w 0) as [w1 r1].
        simpl in Hr, Hstep. subst r1. apply IH; [lia|].
        apply Hstep. unfold betweenLevels. auto.
    + destruct Hinv as (Hc & Hlen & Hrun & Hprefix & Hsettled).
      apply lookup_ge_None in Ecmd.
      split; [|split; [exact Hprefix|]].
      * rewrite <- (length_map childCommand), Hprefix, length_take. lia.
      * destruct Hsettled as [Hs|[_ Hlt]]; [exact Hs|lia].
Qed.

End LauncherFacts.

(** C4. The ['close'] handler of a detector child that printed [chunks] and
    ended with [exitCode] makes one call, decided by the exit code and the
    accumulated output: it resolves with the parsed standard output exactly
    when the exit code is 0 and the output parses; a non-zero exit code (or
    none) rejects with a message that ends with the accumulated standard
    error; exit code 0 with unparseable output rejects with the parse
    failure.  When that child is the first candidate, the call settles the
    promise. *)
Theorem close_settles_by_exit_code {R : Type} `{Host R}
    (commands : list string) (detectorPath code : string) (language : JsValue)
    (index : nat) (chunks : list (Stream * string)) (exitCode : option Z)
    (w : World R) (retries : nat) :
  let stdout := received Stdout chunks in
  let stderr := received Stderr chunks in
  deliver commands detectorPath code language index
    (map dataEvent chunks ++ [CloseEvent exitCode]) "" "" w retries =
    (settle (onClose exitCode stdout stderr) w, retries) /\
  (forall result,
      onClose exitCode stdout stderr = Resolved result <->
      exitCode = Some 0%Z /\ JSON_parse stdout = Some result) /\
  (exitCode <> Some 0%Z ->
   onClose exitCode stdout stderr =
   Rejected ("Detector exited with code " +:+ showExitCode exitCode +:+ ": " +:+ stderr)) /\
  (exitCode = Some 0%Z -> JSON_parse stdout = None ->
   onClose exitCode stdout stderr =
   Rejected ("Failed to parse detector output: " +:+ stdout)) /\
  (forall (spawner : Spawner) (pythonCmd : string),
      commands !! 0 = Some pythonCmd ->
      spawner pythonCmd = map dataEvent chunks ++ [CloseEvent exitCode] ->
      settled (runRequest spawner commands detectorPath code language) =
      Some (onClose exitCode stdout stderr)).
Proof.
  intros stdout stderr.
  assert (Hrun : forall i w0 r0,
             deliver commands detectorPath code language i
               (map dataEvent chunks ++ [CloseEvent exitCode]) "" "" w0 r0 =
             (settle (onClose exitCode stdout stderr) w0, r0)).
  { intros i w0 r0. rewrite deliver_data. reflexivity. }
  split; [apply Hrun|]. split; [intros result; apply onClose_resolved|].
  split; [apply onClose_failed|].
  split; [intros -> Hparse; now apply onClose_unparseable|].
  intros spawner pythonCmd Hcmd Hevents. unfold runRequest.
  destruct commands as [|c cs]; [now rewrite lookup_nil in Hcmd|].
  change (Some c = Some pythonCmd) in Hcmd. injection Hcmd as ->.
  cbn [length runChildren]. change ((pythonCmd :: cs) !! 0) with (Some pythonCmd).
  cbn [Nat.iter nat_rect]. rewrite Hevents, Hrun.
  rewrite runChildren_none. reflexivity.
Qed.

Lemma close_settles_by_exit_code_witness :
  onClose (H := sampleHost) (Some 1%Z) "" "boom" =
  Rejected "Detector exited with code 1: boom".
Proof.
  refine (proj1 (proj2 (proj2
    (close_settles_by_exit_code (H := sampleHost) ["python"] "/ext/detector.py"
       "x" (JsString "python") 0 [(Stderr, "boom")] (Some 1%Z) newWorld 0))) _).
  discriminate.
Defined.

(** The children of a request, whatever the candidates and the machine:
    the first runs the first candidate, and each was started with the
    detector's path and given the request and the end of the input. *)
Lemma runRequest_children {R : Type} `{Host R} (spawner : Spawner)
    (commands : list string) (detectorPath code : string) (language : JsValue) :
  let w : World R := runRequest spawner commands detectorPath code language in
  let payload :=
    JSON_stringify [("code", JsString code); ("language", language)] in
  (forall first, commands !! 0 = Some first ->
     exists rest,
       children w =
       mkChild first [detectorPath] [StdinWrite payload; StdinEnd] :: rest) /\
  Forall (fun child =>
            childArgs child = [detectorPath] /\
            childStdin child = [StdinWrite payload; StdinEnd])
         (children w).
Proof.
  intros w payload. unfold w, runRequest.
  apply (runChildren_keeps spawner commands detectorPath code language
           (fun w0 =>
              (forall first, commands !! 0 = Some first ->
                 exists rest,
                   children w0 =
                   mkChild first [detectorPath] [StdinWrite payload; StdinEnd] :: rest) /\
              Forall (fun child =>
                        childArgs child = [detectorPath] /\
                        childStdin child = [StdinWrite payload; StdinEnd])
                     (children w0))).
  - intros s w0 Hw0. exact Hw0.
  - intros i w0 [Hfirst Hall]. unfold tryPythonCommand.
    destruct (commands !! i) as [pythonCmd|]; simpl; [|split; assumption].
    split.
    + intros first Hcmd. destruct (Hfirst first Hcmd) as [rest Hrest].
      exists (rest ++ [mkChild pythonCmd [detectorPath] [StdinWrite payload; StdinEnd]]).
      now rewrite Hrest.
    + apply Forall_app. split; [exact Hall|]. repeat constructor.
  - unfold tryPythonCommand.
    destruct (commands !! 0) as [pythonCmd|]; simpl.
    + split; [|repeat constructor].
      intros first [= <-]. now exists [].
    + split; [discriminate|constructor].
Qed.

(** The values of [languageMap]. *)
Lemma languageMap_lookup (languageId v : string) :
  languageMap !! languageId = Some v -> v = "python" \/ v = "javascript".
Proof.
  unfold languageMap. rewrite !lookup_insert, lookup_empty.
  repeat case_decide; intros ?; simplify_eq; auto.
Qed.

(** A selection in a language of the map is analysed, as that language. *)
Lemma supported_language_analyzed {R : Type} `{Host R} (render : R -> string)
    (spawner : Spawner) (extensionPath : string) (editor : Editor)
    (mapped : string) :
  truthy (JsString (selectedText editor)) = true ->
  trim (selectedText editor) <> "" ->
  languageMap !! languageId editor = Some mapped ->
  (mapped = "python" \/ mapped = "javascript") /\
  request (analyzeCommand render spawner extensionPath (Some editor)) =
  Some (analyzeCode spawner (selectedText editor) (JsString mapped) extensionPath).
Proof.
  intros Hsel Htrim Hmap.
  pose proof (languageMap_lookup _ _ Hmap) as Hmapped.
  split; [exact Hmapped|].
  unfold analyzeCommand, jsGet. rewrite Hsel, Hmap.
  apply String.eqb_neq in Htrim. rewrite Htrim.
  destruct Hmapped as [-> | ->]; reflexivity.
Qed.

(** C6. Every child of a request is started as
    [spawn(pythonCmd, [detectorPath])] and gets exactly one write on its
    standard input, the serialization of the object with the fields [code]
    and [language] in this order, followed by the end of the input; the
    first child runs [python].  In a request made by the command, [code] is
    the selected text and [language] the language the map gives for the
    document, [python] or [javascript]. *)
Theorem request_payload_written {R : Type} `{Host R} (spawner : Spawner)
    (extensionPath : string) :
  (forall (code : string) (language : JsValue),
      let w : World R := analyzeCode spawner code language extensionPath in
      let payload :=
        JSON_stringify [("code", JsString code); ("language", language)] in
      let detectorPath := path_join extensionPath "detector.py" in
      (exists rest,
          children w =
          mkChild "python" [detectorPath] [StdinWrite payload; StdinEnd] :: rest) /\
      Forall (fun child =>
                childArgs child = [detectorPath] /\
                childStdin child = [StdinWrite payload; StdinEnd])
             (children w)) /\
  (forall (render : R -> string) (editor : Editor) (mapped : string),
      truthy (JsString (selectedText editor)) = true ->
      trim (selectedText editor) <> "" ->
      languageMap !! languageId editor = Some mapped ->
      (mapped = "python" \/ mapped = "javascript") /\
      exists w,
        request (analyzeCommand render spawner extensionPath (Some editor)) = Some w /\
        Forall (fun child =>
                  childStdin child =
                  [StdinWrite (JSON_stringify
                                 [("code", JsString (selectedText editor));
                                  ("language", JsString mapped)]);
                   StdinEnd])
               (children w)).
Proof.
  split.
  - intros code language w payload detectorPath.
    destruct (runRequest_children spawner ["python"; "python3"; "py"]
                detectorPath code language) as [Hfirst Hall].
    split; [apply Hfirst; reflexivity|exact Hall].
  - intros render editor mapped Hsel Htrim Hmap.
    destruct (supported_language_analyzed render spawner extensionPath editor
                mapped Hsel Htrim Hmap) as [Hmapped Hrequest].
    split; [exact Hmapped|]. eexists. split; [exact Hrequest|].
    destruct (runRequest_children spawner ["python"; "python3"; "py"]
                (path_join extensionPath "detector.py") (selectedText editor)
                (JsString mapped)) as [_ Hall].
    eapply Forall_impl; [exact Hall|]. intros child [_ Hstdin]. exact Hstdin.
Qed.

Lemma request_payload_written_witness :
  exists w,
    request (analyzeCommand (H := sampleHost) getResultsHtml pythonInstalled
               "/ext" (Some (mkEditor "eval(x)" "typescript"))) = Some w /\
    Forall (fun child =>
              childStdin child =
              [StdinWrite (JSON_stringify (Host := sampleHost)
                             [("code", JsString "eval(x)");
                              ("language", JsString "javascript")]);
               StdinEnd])
           (children w).
Proof.
  refine (proj2 (proj2 (request_payload_written (H := sampleHost)
                          pythonInstalled "/ext")
                   getResultsHtml (mkEditor "eval(x)" "typescript")
                   "javascript" _ _ _)).
  - reflexivity.
  - discriminate.
  - vm_compute. reflexivity.
Defined.

(** C10. When every candidate's child emits ['error'] at most once and
    emits ['error'] or ['close'], a request starts at most
    [commands.length] children and ends with its promise settled.  Each
    ['error'] calls [tryPythonCommand] with the index raised by one, and a
    call with [index >= commands.length] rejects without starting a child. *)
Theorem retry_terminates {R : Type} `{Host R} (spawner : Spawner)
    (commands : list string) (detectorPath code : string) (language : JsValue) :
  (forall pythonCmd, pythonCmd ∈ commands -> errorCount (spawner pythonCmd) <= 1) ->
  (forall pythonCmd, pythonCmd ∈ commands ->
     closes (spawner pythonCmd) = true \/ 1 <= errorCount (spawner pythonCmd)) ->
  let w : World R := runRequest spawner commands detectorPath code language in
  length (children w) <= length commands /\
  is_Some (settled w) /\
  (forall index rest stdout stderr (w0 : World R) retries,
      deliver commands detectorPath code language index (ErrorEvent :: rest)
        stdout stderr w0 retries =
      deliver commands detectorPath code language index rest stdout stderr
        (tryPythonCommand commands detectorPath code language (index + 1) w0)
        (S retries)) /\
  (forall index (w0 : World R),
      length commands <= index ->
      tryPythonCommand commands detectorPath code language index w0 =
      settle (Rejected notInstalled) w0 /\
      children (tryPythonCommand commands detectorPath code language index w0) =
      children w0).
Proof.
  intros Hone Hends w.
  destruct (runChildren_betweenLevels spawner commands detectorPath code language
              (length commands) 0 1 _ Hone Hends (Nat.le_add_r _ 0)
              (betweenLevels_start commands detectorPath code language))
    as (Hlen & _ & Hsettled).
  split; [exact Hlen|]. split; [exact Hsettled|]. split; [reflexivity|].
  intros index w0 Hi.
  rewrite (tryNext_exhausted commands detectorPath code language index w0 Hi).
  split; reflexivity.
Qed.

Lemma retry_terminates_witness :
  let w : World Response :=
    runRequest (H := sampleHost) noPython ["python"; "python3"; "py"]
      "/ext/detector.py" "x" (JsString "python") in
  length (children w) <= 3 /\ is_Some (settled w).
Proof.
  destruct (retry_terminates (H := sampleHost) noPython
              ["python"; "python3"; "py"] "/ext/detector.py" "x"
              (JsString "python")) as (Hlen & Hsettled & _).
  - intros pythonCmd _. simpl. lia.
  - intros pythonCmd _. left. reflexivity.
  - split; [exact Hlen|exact Hsettled].
Defined.


(** ** The command handler *)

(** The language IDs the map answers [undefined] for. *)
Lemma languageMap_undefined (languageId : string) :
  jsGet languageMap languageId = JsUndefined <->
  languageMap !! languageId = None /\ languageId ∉ objectPrototypeKeys.
Proof.
  unfold jsGet. destruct (languageMap !! languageId) as [v|].
  - split; [discriminate|intros [? _]; discriminate].
  - case_bool_decide as Hin.
    + split; [discriminate|intros [_ Hnot]; contradiction].
    + split; auto.
Qed.

(** A selection in a language the map answers [undefined] for gets the
    warning, and nothing else happens. *)
Lemma unsupported_language_warned {R : Type} `{Host R} (render : R -> string)
    (spawner : Spawner) (extensionPath : string) (editor : Editor) :
  truthy (JsString (selectedText editor)) = true ->
  trim (selectedText editor) <> "" ->
  jsGet languageMap (languageId editor) = JsUndefined ->
  analyzeCommand render spawner extensionPath (Some editor) =
  mkCommandRun
    [ShowWarningMessage
       ("Language " +:+ dq +:+ languageId editor +:+ dq +:+
        " is not supported. Only Python and JavaScript are currently supported.")]
    None.
Proof.
  intros Hsel Htrim Hlang. unfold analyzeCommand.
  rewrite Hsel. apply String.eqb_neq in Htrim. rewrite Htrim, Hlang.
  reflexivity.
Qed.

Example ruby_warned :
  analyzeCommand (H := sampleHost) getResultsHtml pythonInstalled "/ext"
    (Some (mkEditor "eval(x)" "ruby")) =
  mkCommandRun
    [ShowWarningMessage
       ("Language " +:+ dq +:+ "ruby" +:+ dq +:+
        " is not supported. Only Python and JavaScript are currently supported.")]
    None.
Proof. vm_compute. reflexivity. Qed.

(** C1, at the language ID [constructor].  [languageMap] is an object
    literal, so [languageMap["constructor"]] is the function inherited from
    [Object.prototype], which is truthy: no warning is shown and the
    detector is started, on every machine; where the detector answers with
    no findings, the safe panel is shown. *)
Theorem inherited_language_id_starts_engine (render : Response -> string)
    (spawner : Spawner) (extensionPath : string) :
  let editor := mkEditor "eval(x)" "constructor" in
  let run :=
    analyzeCommand (H := sampleHost) render spawner extensionPath (Some editor) in
  jsGet languageMap "constructor" = JsInherited "constructor" /\
  ("constructor" ∉ ["python"; "javascript"]) /\
  (exists rest,
      ui run = WithProgress "Analyzing code for vulnerabilities..." :: rest /\
      forall message, ShowWarningMessage message ∉ rest) /\
  (exists w rest,
      request run = Some w /\
      children w =
      mkChild "python" [extensionPath +:+ "/detector.py"]
        [StdinWrite (JSON_stringify (Host := sampleHost)
                       [("code", JsString "eval(x)");
                        ("language", JsInherited "constructor")]);
         StdinEnd] :: rest) /\
  ui (analyzeCommand (H := sampleHost) getResultsHtml pythonInstalled
        extensionPath (Some editor)) =
    [WithProgress "Analyzing code for vulnerabilities...";
     ShowResultsPanel (getResultsHtml (mkResponse "python" (Some [])))].
Proof.
  intros editor run.
  assert (Hget : jsGet languageMap "constructor" = JsInherited "constructor")
    by (vm_compute; reflexivity).
  split; [exact Hget|].
  split; [intros Hin; rewrite !elem_of_cons, elem_of_nil in Hin;
          destruct Hin as [?|[?|[]]]; discriminate|].
  assert (Hrun : run =
            let w := analyzeCode (H := sampleHost) spawner "eval(x)"
                       (JsInherited "constructor") extensionPath in
            mkCommandRun
              (WithProgress "Analyzing code for vulnerabilities..." ::
               match settled w with
               | Some (Resolved result) => [ShowResultsPanel (render result)]
               | Some (Rejected message) =>
                   [ShowErrorMessage ("Analysis failed: " +:+ message)]
               | None => []
               end)
              (Some w)).
  { unfold run, analyzeCommand, editor. cbn [selectedText languageId].
    rewrite Hget. reflexivity. }
  split; [|split].
  - rewrite Hrun. cbn zeta. cbn [ui]. eexists. split; [reflexivity|].
    intros message.
    destruct (settled _) as [[result|failure]|]; intros Hin;
      rewrite ?elem_of_cons, elem_of_nil in Hin;
      repeat destruct Hin as [Hin|Hin]; try discriminate; exact Hin.
  - rewrite Hrun. cbn zeta. cbn [request].
    destruct (runRequest_children (H := sampleHost) spawner
                ["python"; "python3"; "py"] (extensionPath +:+ "/detector.py")
                "eval(x)" (JsInherited "constructor")) as [Hfirst _].
    destruct (Hfirst "python" eq_refl) as [rest Hrest].
    eexists. exists rest. split; [reflexivity|]. exact Hrest.
  - vm_compute. reflexivity.
Qed.

(** ** The scan engine *)

Module EngineFacts.
Import Engine.

Lemma comesBefore_ordered (a b : Candidate) :
  comesBefore a b = true <-> ordered a b.
Proof.
  unfold comesBefore, ordered.
  rewrite orb_true_iff, !andb_true_iff, orb_true_iff, andb_true_iff.
  rewrite !Nat.ltb_lt, !Nat.eqb_eq, Nat.leb_le. lia.
Qed.

Lemma comesBefore_total (a b : Candidate) :
  comesBefore a b = false -> ordered b a.
Proof.
  intros Hab. apply comesBefore_ordered.
  destruct (comesBefore b a) eqn:Hba; [reflexivity|].
  unfold comesBefore in Hab, Hba.
  rewrite orb_false_iff, !andb_false_iff, orb_false_iff, andb_false_iff in Hab, Hba.
  rewrite !Nat.ltb_ge, !Nat.eqb_neq, Nat.leb_gt in Hab, Hba. lia.
Qed.

Lemma ordered_trans (a b c : Candidate) : ordered a b -> ordered b c -> ordered a c.
Proof. unfold ordered. lia. Qed.

Lemma insertSorted_Forall (P : Candidate -> Prop) (c : Candidate) (cs : list Candidate) :
  P c -> Forall P cs -> Forall P (insertSorted c cs).
Proof.
  intros Hc Hcs. induction Hcs as [|d rest Hd Hrest IH]; simpl.
  - repeat constructor. exact Hc.
  - destruct (comesBefore c d); repeat constructor; auto.
Qed.

Lemma insertSorted_sorted (c : Candidate) (cs : list Candidate) :
  StronglySorted ordered cs -> StronglySorted ordered (insertSorted c cs).
Proof.
  intros Hcs. induction Hcs as [|d rest Hrest IH Hd]; simpl.
  - repeat constructor.
  - destruct (comesBefore c d) eqn:Hcd.
    + apply comesBefore_ordered in Hcd. constructor.
      * now constructor.
      * constructor; [exact Hcd|].
        eapply Forall_impl; [exact Hd|]. intros e He.
        now apply (ordered_trans c d e).
    + apply comesBefore_total in Hcd. constructor; [exact IH|].
      now apply insertSorted_Forall.
Qed.

Lemma sortCandidates_sorted (cs : list Candidate) :
  StronglySorted ordered (sortCandidates cs).
Proof.
  induction cs as [|c cs IH]; simpl; [constructor|].
  now apply insertSorted_sorted.
Qed.

Lemma insertSorted_perm (c : Candidate) (cs : list Candidate) :
  insertSorted c cs ≡ₚ c :: cs.
Proof.
  induction cs as [|d rest IH]; simpl; [reflexivity|].
  destruct (comesBefore c d); [reflexivity|].
  rewrite IH. apply Permutation_swap.
Qed.

(** Sorting neither drops nor invents a candidate. *)
Lemma sortCandidates_perm (cs : list Candidate) : sortCandidates cs ≡ₚ cs.
Proof.
  induction cs as [|c cs IH]; simpl; [reflexivity|].
  now rewrite insertSorted_perm, IH.
Qed.

Lemma sorted_pairs (cs : list Candidate) :
  StronglySorted ordered cs ->
  forall i j a b, i < j -> cs !! i = Some a -> cs !! j = Some b -> ordered a b.
Proof.
  intros Hcs. induction Hcs as [|c rest Hrest IH Hc]; intros i j a b Hij Ha Hb.
  - now rewrite lookup_nil in Ha.
  - destruct j as [|j]; [lia|]. destruct i as [|i].
    + change (Some c = Some a) in Ha. injection Ha as <-.
      change (rest !! j = Some b) in Hb.
      rewrite Forall_forall in Hc. apply Hc.
      eapply list_elem_of_lookup_2. exact Hb.
    + apply (IH i j); [lia|exact Ha|exact Hb].
Qed.

End EngineFacts.

(** C7. The findings of a response are the ranked candidates in order, and
    these are sorted: of two candidates the earlier one has the higher or the
    same severity; with the same severity its first line is the lower or the
    same; with the same first line too, its rule was declared first. *)
Theorem findings_ranked (catalog : list Engine.Rule) (code language : string) :
  let cs := Engine.ranked catalog code language in
  StronglySorted Engine.ordered cs /\
  (forall i j a b,
      i < j -> cs !! i = Some a -> cs !! j = Some b -> Engine.ordered a b) /\
  (Engine.supported language = true ->
   Engine.analyze catalog code language =
   Engine.Answer (mkResponse language (Some (map Engine.toFinding cs)))).
Proof.
  intros cs.
  assert (Hsorted : StronglySorted Engine.ordered cs)
    by apply EngineFacts.sortCandidates_sorted.
  split; [exact Hsorted|]. split; [now apply EngineFacts.sorted_pairs|].
  intros Hsup. unfold Engine.analyze. now rewrite Hsup.
Qed.

Lemma findings_ranked_witness :
  exists worst other,
    Engine.analyze Engine.sampleCatalog Engine.sampleCode "python" =
    Engine.Answer (mkResponse "python" (Some (map Engine.toFinding [worst; other]))) /\
    Engine.ordered worst other /\
    vulnerability (Engine.toFinding worst) = "Code Injection" /\
    lines (Engine.toFinding worst) = Some [2%Z] /\
    vulnerability (Engine.toFinding other) = "Insecure Deserialization".
Proof.
  destruct (findings_ranked Engine.sampleCatalog Engine.sampleCode "python")
    as (_ & Hpairs & Hanswer).
  specialize (Hanswer eq_refl).
  remember (Engine.ranked Engine.sampleCatalog Engine.sampleCode "python") as cs eqn:Hcs.
  assert (Hshape : exists worst other, cs = [worst; other] /\
            vulnerability (Engine.toFinding worst) = "Code Injection" /\
            lines (Engine.toFinding worst) = Some [2%Z] /\
            vulnerability (Engine.toFinding other) = "Insecure Deserialization").
  { subst cs. vm_compute. eexists _, _. repeat split. }
  destruct Hshape as (worst & other & Heq & Hv1 & Hl1 & Hv2).
  exists worst, other. rewrite Hanswer, Heq. split; [reflexivity|].
  split; [|auto]. apply (Hpairs 0 1); [lia|now rewrite Heq|now rewrite Heq].
Defined.


(** ** The launcher in every order of events *)

Section ScheduledFacts.
Context {R : Type} `{Host R}.
Variable spawner : Spawner.
Variable commands : list string.
Variable detectorPath : string.
Variable code : string.
Variable language : JsValue.

Abbreviation tryStep := (Scheduled.tryCandidate spawner commands detectorPath code language).
Abbreviation nextStep := (Scheduled.deliverNext spawner commands detectorPath code language).
Abbreviation runSteps := (Scheduled.runSchedule spawner commands detectorPath code language).
Abbreviation inChain := (Scheduled.chained spawner commands detectorPath code language).
Abbreviation childFor pythonCmd :=
  (mkChild pythonCmd [detectorPath]
     [StdinWrite (JSON_stringify [("code", JsString code); ("language", language)]);
      StdinEnd]).

Lemma errorCount_app (a b : list ProcEvent) :
  errorCount (a ++ b) = errorCount a + errorCount b.
Proof.
  induction a as [|[data|data| |exitCode] a IH]; simpl; rewrite ?IH; reflexivity.
Qed.

Lemma countNotInstalled_snoc (calls : list (Settlement R)) (s : Settlement R) :
  Scheduled.countNotInstalled (calls ++ [s]) =
  Scheduled.countNotInstalled calls + (if Scheduled.isNotInstalled s then 1 else 0).
Proof.
  induction calls as [|c calls IH]; simpl; [lia|]. rewrite IH. lia.
Qed.

(** The ['close'] handler never gives the launcher's message. *)
Lemma onClose_not_launcher (exitCode : option Z) (stdout stderr : string) :
  Scheduled.isNotInstalled (onClose exitCode stdout stderr) = false.
Proof.
  unfold onClose. destruct exitCode as [[|p|p]|]; try reflexivity.
  destruct (JSON_parse stdout); reflexivity.
Qed.

Lemma settle_head (s : Settlement R) (w : World R) :
  settled w = head (calls w) ->
  settled (settle s w) = head (calls (settle s w)).
Proof.
  unfold settle. simpl. intros ->. destruct (calls w); reflexivity.
Qed.

(** A property kept by every step holds after every schedule. *)
Lemma runSchedule_keeps (P : World R * list Scheduled.Running -> Prop) :
  (forall k st, P st -> P (nextStep k st)) ->
  forall schedule st, P st -> P (runSteps schedule st).
Proof.
  intros Hstep schedule. induction schedule as [|k schedule IH]; intros st Hst;
    [exact Hst|]. simpl. apply IH, Hstep, Hst.
Qed.

Abbreviation tracking := (Scheduled.tracked spawner commands).

Hypothesis one_error :
  forall pythonCmd, pythonCmd ∈ commands -> errorCount (spawner pythonCmd) <= 1.

(** An event other than ['error'] moves one child on. *)
Lemma tracked_advance (errored k : nat) (live : list Scheduled.Running)
    (child : Scheduled.Running) (event : ProcEvent) (rest : list ProcEvent)
    (stdout stderr : string) :
  tracking errored live ->
  live !! k = Some child ->
  Scheduled.pending child = event :: rest ->
  errorCount [event] = 0 ->
  tracking errored
    (<[k := Scheduled.mkRunning (Scheduled.runIndex child) rest stdout stderr]> live).
Proof.
  intros Htracked Hk Hpending Hquiet j other Hj.
  apply list_lookup_insert_Some in Hj as [(<- & <- & _)|(Hne & Hj)];
    [|now apply Htracked].
  destruct (Htracked k child Hk) as (Hindex & pythonCmd & delivered & Hcmd & Htrace & He).
  split; [exact Hindex|]. exists pythonCmd, (delivered ++ [event]).
  split; [exact Hcmd|]. split.
  - rewrite Htrace, Hpending, <- app_assoc. reflexivity.
  - rewrite errorCount_app, Hquiet, He. simpl. lia.
Qed.

(** An ['error'] comes from the first child that has not yet emitted one. *)
Lemma tracked_error (errored k : nat) (live : list Scheduled.Running)
    (child : Scheduled.Running) (rest : list ProcEvent) :
  tracking errored live ->
  length live = Nat.min (errored + 1) (length commands) ->
  live !! k = Some child ->
  Scheduled.pending child = ErrorEvent :: rest ->
  k = errored /\ errored < length commands /\
  Scheduled.runIndex child = errored /\
  tracking (errored + 1)
    (<[k := Scheduled.mkRunning (Scheduled.runIndex child) rest
              (Scheduled.stdout child) (Scheduled.stderr child)]> live).
Proof.
  intros Htracked Hlen Hk Hpending.
  destruct (Htracked k child Hk) as (Hindex & pythonCmd & delivered & Hcmd & Htrace & He).
  pose proof (lookup_lt_Some _ _ _ Hk) as Hlt.
  assert (Hin : pythonCmd ∈ commands) by (eapply list_elem_of_lookup_2; eauto).
  pose proof (one_error pythonCmd Hin) as Hone.
  rewrite Htrace, Hpending, errorCount_app in Hone. simpl in Hone.
  assert (Hk_eq : k = errored).
  { destruct (Nat.ltb_spec k errored); lia. }
  split; [exact Hk_eq|]. split; [lia|]. split; [lia|].
  intros j other Hj.
  apply list_lookup_insert_Some in Hj as [(<- & <- & _)|(Hne & Hj)].
  - split; [exact Hindex|]. exists pythonCmd, (delivered ++ [ErrorEvent]).
    split; [exact Hcmd|]. split.
    + rewrite Htrace, Hpending, <- app_assoc. reflexivity.
    + rewrite errorCount_app. simpl.
      destruct (Nat.ltb_spec k (errored + 1)); lia.
  - destruct (Htracked j other Hj) as (Hjindex & cmd & done & Hjcmd & Hjtrace & Hje).
    split; [exact Hjindex|]. exists cmd, done.
    split; [exact Hjcmd|]. split; [exact Hjtrace|].
    pose proof (lookup_lt_Some _ _ _ Hj) as Hjlt.
    rewrite Hje.
    destruct (Nat.ltb_spec j errored), (Nat.ltb_spec j (errored + 1)); lia.
Qed.

(** A new child joins the chain behind the others. *)
Lemma tracked_snoc (errored : nat) (live : list Scheduled.Running)
    (pythonCmd : string) :
  tracking errored live ->
  length live = errored ->
  commands !! errored = Some pythonCmd ->
  tracking errored (live ++ [Scheduled.mkRunning errored (spawner pythonCmd) "" ""]).
Proof.
  intros Htracked Hlen Hcmd j other Hj.
  apply lookup_app_Some in Hj as [Hj|(Hge & Hj)]; [now apply Htracked|].
  apply list_lookup_singleton_Some in Hj as [Hj0 <-].
  assert (j = errored) as -> by lia.
  split; [reflexivity|]. exists pythonCmd, []. split; [exact Hcmd|].
  split; [reflexivity|]. simpl. now rewrite Nat.ltb_irrefl.
Qed.

Lemma isNotInstalled_launcher :
  Scheduled.isNotInstalled (Rejected notInstalled : Settlement R) = true.
Proof. reflexivity. Qed.

(** The request starts in the chain. *)
Lemma chained_start : inChain 0 (tryStep 0 (newWorld, [])).
Proof.
  unfold Scheduled.chained, Scheduled.tryCandidate, tryPythonCommand. simpl.
  destruct commands as [|pythonCmd rest] eqn:Hcommands; simpl.
  - split; [lia|]. split; [reflexivity|]. split; [reflexivity|].
    split; [|split; reflexivity]. intros k child Hk.
    rewrite lookup_nil in Hk. discriminate.
  - split; [lia|]. split; [reflexivity|]. split; [reflexivity|].
    split; [|split; reflexivity].
    intros k child Hk.
    destruct k as [|j]; [|rewrite lookup_cons, lookup_nil in Hk; discriminate].
    injection Hk as <-. split; [reflexivity|]. exists pythonCmd, [].
    split; [reflexivity|]. split; reflexivity.
Qed.

(** Every event keeps the request in the chain. *)
Lemma chained_step (errored k : nat) (st : World R * list Scheduled.Running) :
  inChain errored st ->
  exists errored', errored <= errored' /\ inChain errored' (nextStep k st).
Proof.
  destruct st as [w live]. intros Hchain.
  pose proof Hchain as (HE & Hlen & Hch & Htr & Hcount & Hhead). simpl in *.
  unfold Scheduled.deliverNext. simpl.
  destruct (live !! k) as [child|] eqn:Hk; [|exists errored; split; [lia|exact Hchain]].
  destruct (Scheduled.pending child) as [|[data|data| |exitCode] rest] eqn:Hp.
  - exists errored; split; [lia|exact Hchain].
  - exists errored. split; [lia|]. unfold Scheduled.chained. simpl.
    rewrite length_insert.
    split; [exact HE|]. split; [exact Hlen|]. split; [exact Hch|].
    split; [|split; [exact Hcount|exact Hhead]].
    eapply tracked_advance; eauto.
  - exists errored. split; [lia|]. unfold Scheduled.chained. simpl.
    rewrite length_insert.
    split; [exact HE|]. split; [exact Hlen|]. split; [exact Hch|].
    split; [|split; [exact Hcount|exact Hhead]].
    eapply tracked_advance; eauto.
  - destruct (tracked_error errored k live child rest Htr Hlen Hk Hp)
      as (-> & Hlt & Hidx & Htr').
    rewrite Hidx in Htr' |- *. exists (errored + 1). split; [lia|].
    assert (Hlive : length live = errored + 1) by lia.
    unfold Scheduled.chained, Scheduled.tryCandidate, tryPythonCommand. simpl.
    destruct (commands !! (errored + 1)) as [pythonCmd|] eqn:Hc.
    + pose proof (lookup_lt_Some _ _ _ Hc) as Hc_lt. simpl.
      rewrite length_app, length_insert. simpl.
      split; [lia|]. split; [lia|]. split.
      { rewrite Hch, Hlive. replace (errored + 1 + 1) with (S (errored + 1)) by lia.
        rewrite (take_S_r _ _ _ Hc), map_app. reflexivity. }
      split.
      { apply tracked_snoc; [exact Htr'| rewrite length_insert; exact Hlive | exact Hc]. }
      split; [|exact Hhead].
      rewrite Hcount.
      destruct (Nat.eqb_spec errored (length commands)),
               (Nat.eqb_spec (errored + 1) (length commands)); lia.
    + apply lookup_ge_None in Hc. simpl.
      rewrite app_nil_r, length_insert.
      split; [lia|]. split; [lia|]. split; [exact Hch|].
      split; [exact Htr'|]. split.
      * rewrite countNotInstalled_snoc, Hcount, isNotInstalled_launcher.
        destruct (Nat.eqb_spec errored (length commands)),
                 (Nat.eqb_spec (errored + 1) (length commands)); lia.
      * apply (settle_head (Rejected notInstalled) w Hhead).
  - exists errored. split; [lia|]. unfold Scheduled.chained. simpl.
    rewrite length_insert.
    split; [exact HE|]. split; [exact Hlen|]. split; [exact Hch|].
    split; [|split].
    + eapply tracked_advance; eauto.
    + rewrite countNotInstalled_snoc, onClose_not_launcher. lia.
    + apply (settle_head _ w Hhead).
Qed.

(** Every state of a request is in the chain. *)
Lemma chained_always (schedule : list nat) :
  exists errored,
    inChain errored (runSteps schedule (tryStep 0 (newWorld, []))).
Proof.
  apply (runSchedule_keeps (fun st => exists errored, inChain errored st)).
  - intros k st [errored Hchain].
    destruct (chained_step errored k st Hchain) as (errored' & _ & Hchain').
    exists errored'. exact Hchain'.
  - exists 0. apply chained_start.
Qed.

(** A settled promise stays as it is. *)
Lemma settled_kept (k : nat) (st : World R * list Scheduled.Running)
    (s : Settlement R) :
  settled (fst st) = Some s -> settled (fst (nextStep k st)) = Some s.
Proof.
  destruct st as [w live]. unfold Scheduled.deliverNext. simpl.
  destruct (live !! k) as [child|]; [|trivial].
  destruct (Scheduled.pending child) as [|[data|data| |exitCode] rest]; simpl;
    try trivial.
  - unfold tryPythonCommand. destruct (commands !! _); simpl; [trivial|].
    intros ->. reflexivity.
  - intros ->. reflexivity.
Qed.

Lemma quiescent_lookup (st : World R * list Scheduled.Running) (k : nat)
    (child : Scheduled.Running) :
  Scheduled.quiescent st = true ->
  snd st !! k = Some child ->
  Scheduled.pending child = [].
Proof.
  unfold Scheduled.quiescent. intros Hall Hk.
  rewrite forallb_forall in Hall.
  assert (Hin : In child (snd st)).
  { apply list_elem_of_In. eapply list_elem_of_lookup_2. exact Hk. }
  specialize (Hall child Hin). unfold Scheduled.finished in Hall.
  destruct (Scheduled.pending child); [reflexivity|discriminate].
Qed.

(** When nothing is left to deliver, the candidates before [errored] have
    emitted ['error'] and the next has not. *)
Lemma quiescent_traces (errored : nat) (st : World R * list Scheduled.Running) :
  inChain errored st ->
  Scheduled.quiescent st = true ->
  forall k pythonCmd, k <= errored -> commands !! k = Some pythonCmd ->
    errorCount (spawner pythonCmd) = (if Nat.ltb k errored then 1 else 0).
Proof.
  intros (HE & Hlen & Hch & Htr & Hcount & Hhead) Hquiet k pythonCmd Hk Hcmd.
  pose proof (lookup_lt_Some _ _ _ Hcmd) as Hlt.
  destruct (lookup_lt_is_Some_2 (snd st) k) as [child Hchild]; [lia|].
  destruct (Htr k child Hchild) as (_ & cmd & delivered & Hcmd' & Htrace & He).
  rewrite (quiescent_lookup st k child Hquiet Hchild), app_nil_r in Htrace.
  assert (cmd = pythonCmd) as -> by congruence.
  rewrite Htrace. exact He.
Qed.

Abbreviation failing := (Scheduled.onlyFailedStarts spawner commands).

Hypothesis fail_to_start :
  forall pythonCmd, pythonCmd ∈ commands -> head (spawner pythonCmd) = Some ErrorEvent.

Lemma failed_start_trace (k : nat) (pythonCmd : string) :
  commands !! k = Some pythonCmd ->
  spawner pythonCmd = ErrorEvent :: tail (spawner pythonCmd) /\
  errorCount (tail (spawner pythonCmd)) = 0.
Proof.
  intros Hcmd.
  assert (Hin : pythonCmd ∈ commands) by (eapply list_elem_of_lookup_2; eauto).
  pose proof (fail_to_start pythonCmd Hin) as Hhead.
  pose proof (one_error pythonCmd Hin) as Hone.
  destruct (spawner pythonCmd) as [|event rest]; [discriminate|].
  injection Hhead as ->. simpl in *. split; [reflexivity|lia].
Qed.

Lemma errorNext_counted (child : Scheduled.Running) :
  Scheduled.errorNext child = true ->
  errorCount (Scheduled.pending child) <> 0.
Proof.
  unfold Scheduled.errorNext.
  destruct (Scheduled.pending child) as [|[data|data| |exitCode] rest];
    simpl; intros Hnext; discriminate.
Qed.

(** A request begins with no event delivered. *)
Lemma onlyFailedStarts_start : failing (tryStep 0 (newWorld, [])).
Proof.
  unfold Scheduled.onlyFailedStarts, Scheduled.tryCandidate, tryPythonCommand.
  simpl. destruct commands as [|pythonCmd rest] eqn:Hcommands; simpl.
  - left. reflexivity.
  - right. split; [reflexivity|]. exists 0. split; [reflexivity|].
    intros k child Hk.
    destruct k as [|j]; [|rewrite lookup_cons, lookup_nil in Hk; discriminate].
    injection Hk as <-. split; [reflexivity|]. exists pythonCmd.
    split; reflexivity.
Qed.

(** An ['error'] delivered before anything else keeps it so. *)
Lemma onlyFailedStarts_step (k : nat) (st : World R * list Scheduled.Running) :
  failing st ->
  (if existsb Scheduled.errorNext (snd st) then
     match snd st !! k with
     | Some child => Scheduled.errorNext child
     | None => false
     end
   else true) = true ->
  failing (nextStep k st).
Proof.
  intros [Hdone|(Hopen & last & Hlen & Hkids)] Hfirst.
  { left. apply settled_kept. exact Hdone. }
  destruct st as [w live]. simpl in *.
  destruct (lookup_lt_is_Some_2 live last) as [lastChild Hlast]; [lia|].
  destruct (Hkids last lastChild Hlast) as (HlastIndex & lastCmd & HlastCmd & HlastPending).
  rewrite Nat.ltb_irrefl in HlastPending.
  destruct (failed_start_trace last lastCmd HlastCmd) as (HlastTrace & _).
  assert (Hsome : existsb Scheduled.errorNext live = true).
  { apply existsb_exists. exists lastChild. split.
    - apply list_elem_of_In. eapply list_elem_of_lookup_2. exact Hlast.
    - unfold Scheduled.errorNext. rewrite HlastPending, HlastTrace. reflexivity. }
  rewrite Hsome in Hfirst.
  destruct (live !! k) as [child|] eqn:Hk; [|discriminate].
  destruct (Hkids k child Hk) as (Hindex & pythonCmd & Hcmd & Hpending).
  pose proof (lookup_lt_Some _ _ _ Hk) as Hlt.
  destruct (failed_start_trace k pythonCmd Hcmd) as (Htrace & Hquiet).
  pose proof (errorNext_counted child Hfirst) as Hcounted.
  assert (k = last) as ->.
  { destruct (Nat.ltb_spec k last) as [Hbefore|Hafter]; [|lia].
    rewrite Hpending in Hcounted. contradiction. }
  rewrite Nat.ltb_irrefl in Hpending.
  unfold Scheduled.deliverNext. simpl. rewrite Hk, Hpending, Htrace, Hindex.
  unfold Scheduled.onlyFailedStarts, Scheduled.tryCandidate, tryPythonCommand.
  simpl. destruct (commands !! (last + 1)) as [nextCmd|] eqn:Hnext; simpl.
  - right. split; [exact Hopen|]. exists (last + 1).
    rewrite length_app, length_insert. simpl. split; [lia|].
    intros j other Hj.
    apply lookup_app_Some in Hj as [Hj|(Hge & Hj)].
    + apply list_lookup_insert_Some in Hj as [(<- & <- & _)|(Hne & Hj)].
      * simpl. split; [reflexivity|]. exists pythonCmd. split; [exact Hcmd|].
        destruct (Nat.ltb_spec last (last + 1)); [reflexivity|lia].
      * destruct (Hkids j other Hj) as (Hjindex & cmd & Hjcmd & Hjpending).
        split; [exact Hjindex|]. exists cmd. split; [exact Hjcmd|].
        pose proof (lookup_lt_Some _ _ _ Hj) as Hjlt.
        rewrite Hjpending.
        destruct (Nat.ltb_spec j last), (Nat.ltb_spec j (last + 1));
          try reflexivity; lia.
    + rewrite length_insert in Hge, Hj.
      apply list_lookup_singleton_Some in Hj as [Hj0 <-].
      assert (j = last + 1) as -> by lia. simpl.
      split; [reflexivity|]. exists nextCmd. split; [exact Hnext|].
      now rewrite Nat.ltb_irrefl.
  - left. rewrite Hopen. reflexivity.
Qed.

(** When the events of failed starts come first, the launcher's rejection
    is the promise's. *)
Lemma failed_starts_reject (schedule : list nat) :
  forall st,
    failing st ->
    Scheduled.startFailuresFirst spawner commands detectorPath code language schedule st = true ->
    Scheduled.quiescent (runSteps schedule st) = true ->
    settled (fst (runSteps schedule st)) = Some (Rejected notInstalled).
Proof.
  induction schedule as [|k schedule IH]; intros st Hfailing Hfirst Hquiet.
  - simpl in *. destruct Hfailing as [Hdone|(Hopen & last & Hlen & Hkids)];
      [exact Hdone|].
    destruct (lookup_lt_is_Some_2 (snd st) last) as [lastChild Hlast]; [lia|].
    destruct (Hkids last lastChild Hlast) as (_ & lastCmd & HlastCmd & HlastPending).
    rewrite Nat.ltb_irrefl in HlastPending.
    destruct (failed_start_trace last lastCmd HlastCmd) as (HlastTrace & _).
    rewrite (quiescent_lookup st last lastChild Hquiet Hlast) in HlastPending.
    rewrite <- HlastPending in HlastTrace. discriminate.
  - simpl in Hfirst. apply andb_prop in Hfirst as [Hnow Hlater].
    simpl. apply IH; [|exact Hlater|exact Hquiet].
    apply onlyFailedStarts_step; assumption.
Qed.

End ScheduledFacts.

(** The candidates a request gets to are those up to the first without an
    ['error']. *)
Lemma triedCandidates_take (spawner : Spawner) (commands : list string) :
  forall errored,
    (forall k pythonCmd, k < errored -> commands !! k = Some pythonCmd ->
       errorCount (spawner pythonCmd) <> 0) ->
    (forall pythonCmd, commands !! errored = Some pythonCmd ->
       errorCount (spawner pythonCmd) = 0) ->
    triedCandidates spawner commands = take (errored + 1) commands.
Proof.
  induction commands as [|c rest IH]; intros errored Hbefore Hat;
    [now rewrite take_nil|].
  destruct errored as [|errored]; simpl.
  - rewrite (Hat c eq_refl). simpl. now rewrite take_0.
  - pose proof (Hbefore 0 c ltac:(lia) eq_refl) as Hc.
    destruct (Nat.eqb_spec (errorCount (spawner c)) 0); [contradiction|].
    f_equal. apply IH.
    + intros k pythonCmd Hk Hcmd. apply (Hbefore (S k)); [lia|exact Hcmd].
    + intros pythonCmd Hcmd. apply Hat. exact Hcmd.
Qed.

(** C5. The children of a request are started for the candidates in the
    order of the list, the next one exactly when the child of the one
    before emits ['error']: in every order of events the children are a
    prefix of the list, and once every event is delivered they are the
    candidates up to the first whose child emits no ['error'].  The
    launcher's own rejection is called at most once, and, once every event
    is delivered, exactly when the child of every candidate has emitted
    ['error'].  The promise carries the launcher's message only if every
    candidate has failed, and it does carry it when every candidate fails
    to start and the ['error'] of a failed start is delivered before the
    other events, as Node does. *)
Theorem candidates_in_order_then_one_failure {R : Type} `{Host R}
    (spawner : Spawner) (commands : list string) (detectorPath code : string)
    (language : JsValue) (schedule : list nat)
    (one_error : forall pythonCmd, pythonCmd ∈ commands ->
                   errorCount (spawner pythonCmd) <= 1) :
  let start : World R * list Scheduled.Running :=
    Scheduled.tryCandidate spawner commands detectorPath code language 0 (newWorld, []) in
  let st := Scheduled.runRequest spawner commands detectorPath code language schedule in
  let started pythonCmd :=
    mkChild pythonCmd [detectorPath]
      [StdinWrite (JSON_stringify [("code", JsString code); ("language", language)]);
       StdinEnd] in
  let allFailed :=
    forall pythonCmd, pythonCmd ∈ commands -> errorCount (spawner pythonCmd) = 1 in
  (exists n, children (fst st) = map started (take n commands)) /\
  (Scheduled.quiescent st = true ->
     children (fst st) = map started (triedCandidates spawner commands)) /\
  Scheduled.countNotInstalled (calls (fst st)) <= 1 /\
  (Scheduled.quiescent st = true ->
     (Scheduled.countNotInstalled (calls (fst st)) = 1 <-> allFailed)) /\
  (settled (fst st) = Some (Rejected notInstalled) -> allFailed) /\
  ((forall pythonCmd, pythonCmd ∈ commands ->
      head (spawner pythonCmd) = Some ErrorEvent) ->
   Scheduled.startFailuresFirst spawner commands detectorPath code language
     schedule start = true ->
   Scheduled.quiescent st = true ->
   settled (fst st) = Some (Rejected notInstalled)).
Proof.
  intros start st started allFailed.
  destruct (chained_always spawner commands detectorPath code language
              one_error schedule) as [errored Hchain].
  fold start in Hchain. change (Scheduled.runSchedule _ _ _ _ _ schedule start)
    with st in Hchain.
  pose proof Hchain as (HE & Hlen & Hch & Htr & Hcount & Hhead).
  assert (Hall : errored = length commands -> allFailed).
  { intros Heq pythonCmd Hin.
    apply list_elem_of_lookup_1 in Hin as [k Hk].
    pose proof (lookup_lt_Some _ _ _ Hk) as Hlt.
    destruct (lookup_lt_is_Some_2 (snd st) k) as [child Hchild]; [lia|].
    destruct (Htr k child Hchild) as (_ & cmd & delivered & Hcmd & Htrace & He).
    assert (cmd = pythonCmd) as -> by congruence.
    assert (Hin : pythonCmd ∈ commands) by (eapply list_elem_of_lookup_2; eauto).
    pose proof (one_error pythonCmd Hin) as Hone.
    rewrite Htrace, errorCount_app in Hone |- *.
    destruct (Nat.ltb_spec k errored); lia. }
  split; [exists (length (snd st)); exact Hch|].
  split.
  { intros Hquiet. rewrite Hch, Hlen. f_equal.
    rewrite (triedCandidates_take spawner commands errored).
    - rewrite <- (take_take commands (errored + 1) (length commands)).
      now rewrite (take_ge commands (length commands)) by lia.
    - intros k pythonCmd Hk Hcmd.
      rewrite (quiescent_traces spawner commands detectorPath code language
                 errored st Hchain Hquiet k pythonCmd ltac:(lia) Hcmd).
      destruct (Nat.ltb_spec k errored); lia.
    - intros pythonCmd Hcmd.
      rewrite (quiescent_traces spawner commands detectorPath code language
                 errored st Hchain Hquiet errored pythonCmd ltac:(lia) Hcmd).
      now rewrite Nat.ltb_irrefl. }
  split; [rewrite Hcount; destruct (Nat.eqb_spec errored (length commands)); lia|].
  split.
  { intros Hquiet. rewrite Hcount.
    destruct (Nat.eqb_spec errored (length commands)) as [Heq|Hne].
    - split; [intros _; exact (Hall Heq)|reflexivity].
    - split; [discriminate|]. intros Hfailed. exfalso.
      destruct (lookup_lt_is_Some_2 commands errored) as [pythonCmd Hcmd]; [lia|].
      pose proof (quiescent_traces spawner commands detectorPath code language
                    errored st Hchain Hquiet errored pythonCmd ltac:(lia) Hcmd) as Hzero.
      rewrite Nat.ltb_irrefl in Hzero.
      assert (Hin : pythonCmd ∈ commands) by (eapply list_elem_of_lookup_2; eauto).
      specialize (Hfailed pythonCmd Hin). lia. }
  split.
  { intros Hsettled. apply Hall.
    rewrite Hsettled in Hhead.
    destruct (calls (fst st)) as [|first rest]; [discriminate|].
    injection Hhead as <-. simpl in Hcount.
    destruct (Nat.eqb_spec errored (length commands)); [assumption|lia]. }
  intros Hfail Hfirst Hquiet.
  exact (failed_starts_reject spawner commands detectorPath code language
           one_error Hfail schedule start
           (onlyFailedStarts_start spawner commands detectorPath code language
              one_error Hfail)
           Hfirst Hquiet).
Qed.

Lemma candidates_in_order_then_one_failure_witness :
  let st : World Response * list Scheduled.Running :=
    Scheduled.runRequest (H := sampleHost) noPython ["python"; "python3"; "py"]
      "/ext/detector.py" "x" (JsString "python") Scheduled.errorsThenCloses in
  (forall pythonCmd, pythonCmd ∈ ["python"; "python3"; "py"] ->
     errorCount (noPython pythonCmd) <= 1) /\
  map childCommand (children (fst st)) = ["python"; "python3"; "py"] /\
  Scheduled.countNotInstalled (calls (fst st)) = 1 /\
  settled (fst st) = Some (Rejected notInstalled).
Proof.
  assert (Hone : forall pythonCmd, pythonCmd ∈ ["python"; "python3"; "py"] ->
                   errorCount (noPython pythonCmd) <= 1)
    by (intros pythonCmd _; simpl; lia).
  destruct (candidates_in_order_then_one_failure (H := sampleHost) noPython
              ["python"; "python3"; "py"] "/ext/detector.py" "x"
              (JsString "python") Scheduled.errorsThenCloses Hone)
    as (_ & Hchildren & _ & Hcalls & _ & Hsettled).
  split; [exact Hone|]. split; [|split].
  - rewrite (Hchildren eq_refl). reflexivity.
  - apply (Hcalls eq_refl). intros pythonCmd _. reflexivity.
  - apply Hsettled; [intros pythonCmd _; reflexivity|reflexivity|reflexivity].
Defined.

(** * Further properties of the code *)

(** ** [escapeHtml] *)

Lemma append_cons (a : ascii) (s t : string) :
  String a s +:+ t = String a (s +:+ t).
Proof. reflexivity. Qed.

Lemma replaceAll_app (c : ascii) (by_ s t : string) :
  replaceAll c by_ (s +:+ t) = replaceAll c by_ s +:+ replaceAll c by_ t.
Proof.
  induction s as [|a s IH]; [reflexivity|].
  rewrite append_cons. simpl replaceAll. rewrite IH.
  destruct (Ascii.eqb a c); [now rewrite append_assoc|reflexivity].
Qed.

Lemma replaceAll_cons (c a : ascii) (by_ s : string) :
  replaceAll c by_ (String a s) =
  (if Ascii.eqb a c then by_ else String a "") +:+ replaceAll c by_ s.
Proof. simpl. now destruct (Ascii.eqb a c). Qed.

Lemma fiveReplacements_cons (a : ascii) (s : string) :
  fiveReplacements (String a s) = escapeChar a +:+ fiveReplacements s.
Proof.
  unfold fiveReplacements, escapeChar.
  rewrite (replaceAll_cons "&"). rewrite !replaceAll_app.
  destruct (Ascii.eqb a "&") eqn:E1; [reflexivity|].
  rewrite (replaceAll_cons "<"). rewrite !replaceAll_app.
  destruct (Ascii.eqb a "<") eqn:E2; [reflexivity|].
  rewrite (replaceAll_cons ">"). rewrite !replaceAll_app.
  destruct (Ascii.eqb a ">") eqn:E3; [reflexivity|].
  rewrite (replaceAll_cons "034"). rewrite !replaceAll_app.
  destruct (Ascii.eqb a "034") eqn:E4; [reflexivity|].
  rewrite (replaceAll_cons "'").
  destruct (Ascii.eqb a "'") eqn:E5; reflexivity.
Qed.

Lemma escapeHtml_escapeChars (str : JsValue) :
  escapeHtml str = escapeChars (jsToString str).
Proof.
  change (escapeHtml str) with (fiveReplacements (jsToString str)).
  induction (jsToString str) as [|a s IH]; [reflexivity|].
  rewrite fiveReplacements_cons, IH. reflexivity.
Qed.

Lemma append_nil_l (t : string) : "" +:+ t = t.
Proof. reflexivity. Qed.

Lemma escapeChars_app (s t : string) :
  escapeChars (s +:+ t) = escapeChars s +:+ escapeChars t.
Proof.
  induction s as [|a s IH]; [reflexivity|].
  rewrite append_cons. simpl escapeChars. now rewrite IH, append_assoc.
Qed.

(** X1. The five replacements in a row amount to one pass that replaces
    each of the five characters by its entity and keeps every other
    character: the [&] of an entity written by a later replacement is not
    escaped again.  So escaping a concatenation is concatenating the
    escaped parts. *)
Theorem escapeHtml_one_pass :
  (forall str : JsValue, escapeHtml str = escapeChars (jsToString str)) /\
  (forall s t : string,
      escapeHtml (JsString (s +:+ t)) =
      escapeHtml (JsString s) +:+ escapeHtml (JsString t)).
Proof.
  split; [exact escapeHtml_escapeChars|].
  intros s t. rewrite !escapeHtml_escapeChars. apply escapeChars_app.
Qed.

(** The six kinds of character. *)
Lemma escapeChar_cases (a : ascii) :
  (escapeChar a = String a "" /\ a <> "&"%char) \/
  (a = "&"%char) \/ (a = "<"%char) \/ (a = ">"%char) \/
  (a = "034"%char) \/ (a = "'"%char).
Proof.
  unfold escapeChar.
  destruct (Ascii.eqb a "&") eqn:E1; [apply Ascii.eqb_eq in E1; auto|].
  destruct (Ascii.eqb a "<") eqn:E2; [apply Ascii.eqb_eq in E2; auto|].
  destruct (Ascii.eqb a ">") eqn:E3; [apply Ascii.eqb_eq in E3; auto|].
  destruct (Ascii.eqb a "034") eqn:E4; [apply Ascii.eqb_eq in E4; auto 6|].
  destruct (Ascii.eqb a "'") eqn:E5; [apply Ascii.eqb_eq in E5; auto 7|].
  left. split; [reflexivity|]. now apply Ascii.eqb_neq.
Qed.

Lemma escapeChars_nonempty (a : ascii) (s : string) :
  escapeChars (String a s) <> "".
Proof.
  simpl. destruct (escapeChar_cases a) as [[-> _]|[->|[->|[->|[->| ->]]]]];
    discriminate.
Qed.

Lemma escapeChars_inj (s t : string) :
  escapeChars s = escapeChars t -> s = t.
Proof.
  revert t. induction s as [|c s IH]; intros [|d t] Heq.
  - reflexivity.
  - symmetry in Heq. now apply escapeChars_nonempty in Heq.
  - now apply escapeChars_nonempty in Heq.
  - simpl in Heq.
    destruct (escapeChar_cases c) as [[Hc Hcne]|[->|[->|[->|[->| ->]]]]];
    destruct (escapeChar_cases d) as [[Hd Hdne]|[->|[->|[->|[->| ->]]]]];
    rewrite ?Hc, ?Hd in Heq;
    repeat match type of Heq with
           | context [escapeChar ?x] =>
               let v := eval vm_compute in (escapeChar x) in
               change (escapeChar x) with v in Heq
           end;
    rewrite ?append_cons, ?append_nil_l in Heq;
    try discriminate Heq;
    try (injection Heq as Hhead Htail;
         first [congruence | f_equal; [congruence|now apply IH]]);
    try (injection Heq as Htail; f_equal; now apply IH).
Qed.

(** X2. [escapeHtml] loses nothing: two texts with the same escaped form
    are the same text. *)
Theorem escapeHtml_injective (s t : string) :
  escapeHtml (JsString s) = escapeHtml (JsString t) -> s = t.
Proof. rewrite !escapeHtml_escapeChars. apply escapeChars_inj. Qed.

Lemma escapeHtml_injective_witness :
  escapeHtml (JsString "a<b") = escapeHtml (JsString "a<b") /\ "a<b" = "a<b".
Proof.
  split; [reflexivity|]. apply (escapeHtml_injective "a<b" "a<b"). reflexivity.
Defined.

Lemma string_length_app (s t : string) :
  String.length (s +:+ t) = String.length s + String.length t.
Proof.
  induction s as [|a s IH]; [reflexivity|].
  rewrite append_cons. simpl. now rewrite IH.
Qed.

Lemma escapeChars_length (s : string) :
  String.length s <= String.length (escapeChars s) /\
  (plainText s = false -> String.length s < String.length (escapeChars s)).
Proof.
  induction s as [|a s [IHle IHlt]]; [split; [reflexivity|discriminate]|].
  simpl escapeChars. rewrite string_length_app. simpl String.length.
  simpl plainText. unfold escapeChar.
  destruct (Ascii.eqb a "&"); [simpl; split; intros; lia|].
  destruct (Ascii.eqb a "<"); [simpl; split; intros; lia|].
  destruct (Ascii.eqb a ">"); [simpl; split; intros; lia|].
  destruct (Ascii.eqb a "034"); [simpl; split; intros; lia|].
  destruct (Ascii.eqb a "'"); [simpl; split; intros; lia|].
  simpl. split; [lia|]. intros Hplain. specialize (IHlt Hplain). lia.
Qed.

Lemma escapeChars_plain (s : string) :
  plainText s = true -> escapeChars s = s.
Proof.
  induction s as [|a s IH]; [reflexivity|]. simpl. unfold escapeChar.
  destruct (Ascii.eqb a "&"); [discriminate|].
  destruct (Ascii.eqb a "<"); [discriminate|].
  destruct (Ascii.eqb a ">"); [discriminate|].
  destruct (Ascii.eqb a "034"); [discriminate|].
  destruct (Ascii.eqb a "'"); [discriminate|].
  simpl. intros Hs. now rewrite (IH Hs).
Qed.

(** X3. [escapeHtml] never shortens a text, and it returns the text
    unchanged exactly when the text has none of [&], [<], [>], double quote
    and single quote. *)
Theorem escapeHtml_unchanged_iff_plain (s : string) :
  String.length s <= String.length (escapeHtml (JsString s)) /\
  (escapeHtml (JsString s) = s <-> plainText s = true).
Proof.
  rewrite escapeHtml_escapeChars. simpl jsToString.
  destruct (escapeChars_length s) as [Hle Hlt]. split; [exact Hle|]. split.
  - intros Heq. destruct (plainText s); [reflexivity|].
    specialize (Hlt eq_refl). rewrite Heq in Hlt. lia.
  - apply escapeChars_plain.
Qed.

(** ** The renderers *)

(** X4. Only the first finding decides the header.  A response without
    findings gets the safe header and the safe message.  Any other response
    gets one card for each finding, the error sentinel included; its header
    is the error header when the first finding's vulnerability is "Error",
    and else the count of all its findings, whatever the later ones are. *)
Theorem first_finding_decides (rs : list Finding) :
  match rs with
  | [] =>
      header rs = mkHeader "‚úÖ" "No vulnerabilities detected" "#22c55e" /\
      cardsChunks rs = [Lit safeMessageTpl0]
  | first :: rest =>
      cardsChunks rs = concat (imap (cardChunks (S (length rest))) rs) /\
      isError rs = negb (hasVulnerabilities rs) /\
      header rs =
        if String.eqb (vulnerability first) "Error" then
          mkHeader "‚ùå" "Analysis Error" "#6b7280"
        else
          mkHeader "‚ö†Ô∏è"
            (showZ (Z.of_nat (S (length rest))) +:+ " " +:+
             (match rest with [] => "vulnerability" | _ => "vulnerabilities" end)
             +:+ " detected")
            "#ea580c"
  end.
Proof.
  destruct rs as [|first rest]; [split; reflexivity|].
  unfold cardsChunks, header, isError, hasVulnerabilities.
  destruct (String.eqb (vulnerability first) "Error"); simpl negb; cbv iota.
  - repeat split; reflexivity.
  - split; [reflexivity|]. split; [reflexivity|].
    change (length (first :: rest)) with (S (length rest)).
    destruct rest; reflexivity.
Qed.

(** A response with findings gets one card for each. *)
Lemma cardsChunks_cons (first : Finding) (rest : list Finding) :
  cardsChunks (first :: rest) =
  concat (imap (cardChunks (S (length rest))) (first :: rest)).
Proof.
  unfold cardsChunks, isError, hasVulnerabilities.
  now destruct (String.eqb (vulnerability first) "Error").
Qed.

Lemma escapedTexts_app (cs ds : list Chunk) :
  escapedTexts (cs ++ ds) = escapedTexts cs ++ escapedTexts ds.
Proof. apply omap_app. Qed.

Lemma litTexts_app (cs ds : list Chunk) :
  litTexts (cs ++ ds) = litTexts cs ++ litTexts ds.
Proof. apply omap_app. Qed.

Lemma cardChunks_escaped (vulnCount index : nat) (vuln : Finding) :
  escapedTexts (cardChunks vulnCount index vuln) =
  map (fun field => escapeHtml (JsString field)) (escapedFields vuln).
Proof.
  unfold cardChunks, escapedFields.
  destruct (1 <? vulnCount)%nat; destruct (truthy _); reflexivity.
Qed.

Lemma cards_escaped (g : nat -> Finding -> list Chunk) (rs : list Finding) :
  (forall i v, escapedTexts (g i v) =
               map (fun field => escapeHtml (JsString field)) (escapedFields v)) ->
  escapedTexts (concat (imap g rs)) =
  concat (map (fun v => map (fun field => escapeHtml (JsString field))
                          (escapedFields v)) rs).
Proof.
  revert g. induction rs as [|v rs IH]; intros g Hg; [reflexivity|].
  rewrite imap_cons, map_cons, !concat_cons, escapedTexts_app, Hg.
  f_equal. apply IH. intros i v0. apply Hg.
Qed.

(** X5. The page shows every finding of the response, in the order of the
    response: the pieces that went through [escapeHtml] are, finding by
    finding, the vulnerability, the line text (if the finding has lines),
    the severity, the explanation and the patch. *)
Theorem every_finding_rendered (result : Response) :
  escapedTexts (getResultsChunks result) =
  concat (map (fun vuln => map (fun field => escapeHtml (JsString field))
                             (escapedFields vuln))
            (default [] (results result))).
Proof.
  unfold getResultsChunks. rewrite !escapedTexts_app.
  simpl escapedTexts at 1. simpl escapedTexts at 2.
  rewrite app_nil_r. cbn [app].
  destruct (default [] (results result)) as [|first rest] eqn:E; [reflexivity|].
  rewrite cardsChunks_cons. apply cards_escaped. intros i v. apply cardChunks_escaped.
Qed.

(** The location badge is there exactly for a finding with lines. *)
Lemma lineText_truthy (ls : list Z) :
  truthy (JsString (lineText ls)) = negb (bool_decide (ls = [])).
Proof.
  destruct ls as [|l [|l' ls]]; reflexivity.
Qed.

Lemma cardChunks_skeleton (n i j : nat) (v1 v2 : Finding) :
  (default [] (lines v1) = [] <-> default [] (lines v2) = []) ->
  litTexts (cardChunks n i v1) = litTexts (cardChunks n j v2).
Proof.
  intros Hsame. unfold cardChunks.
  rewrite (lineText_truthy (default [] (lines v1))),
    (lineText_truthy (default [] (lines v2))).
  assert (Hb : bool_decide (default [] (lines v1) = []) =
               bool_decide (default [] (lines v2) = []))
    by (apply bool_decide_ext; exact Hsame).
  rewrite Hb.
  destruct (1 <? n)%nat; destruct (bool_decide (default [] (lines v2) = []));
    reflexivity.
Qed.

Lemma cards_skeleton (g1 g2 : nat -> Finding -> list Chunk)
    (rs1 rs2 : list Finding) :
  (forall i j v1 v2,
      (default [] (lines v1) = [] <-> default [] (lines v2) = []) ->
      litTexts (g1 i v1) = litTexts (g2 j v2)) ->
  Forall2 (fun v1 v2 => default [] (lines v1) = [] <-> default [] (lines v2) = [])
          rs1 rs2 ->
  litTexts (concat (imap g1 rs1)) = litTexts (concat (imap g2 rs2)).
Proof.
  intros Hg Hrs. revert g1 g2 Hg.
  induction Hrs as [|v1 v2 rs1 rs2 Hv Hrs IH]; intros g1 g2 Hg; [reflexivity|].
  rewrite !imap_cons, !concat_cons, !litTexts_app. f_equal; [now apply Hg|].
  apply IH. intros i j w1 w2. apply Hg.
Qed.

(** X6. The template text of the page depends only on how many findings the
    response has and on which of them have lines; no field of a finding
    changes it.  The flat page of [src/extension.js] has the same template
    text for every result. *)
Theorem template_text_fixed_by_shape (r1 r2 : Response) :
  Forall2 (fun v1 v2 => default [] (lines v1) = [] <-> default [] (lines v2) = [])
          (default [] (results r1)) (default [] (results r2)) ->
  litTexts (getResultsChunks r1) = litTexts (getResultsChunks r2) /\
  (forall flat1 flat2 : Legacy.Result,
      litTexts (Legacy.getResultsChunks flat1) =
      litTexts (Legacy.getResultsChunks flat2)).
Proof.
  intros Hshape. split; [|reflexivity].
  unfold getResultsChunks. rewrite !litTexts_app.
  f_equal. f_equal.
  destruct Hshape as [|v1 v2 rs1 rs2 Hv Hrs]; [reflexivity|].
  pose proof (Forall2_length _ _ _ Hrs) as Hlen.
  rewrite !cardsChunks_cons, Hlen. apply cards_skeleton.
  - intros i j w1 w2. apply cardChunks_skeleton.
  - now constructor.
Qed.

Lemma template_text_fixed_by_shape_witness :
  let r1 := mkResponse "python"
              (Some [mkFinding "Code Injection" "Critical" (Some [3%Z])
                       "eval on input" "ast.literal_eval(x)"]) in
  let r2 := mkResponse "javascript"
              (Some [mkFinding "<script>alert(1)</script>" "High" (Some [7%Z; 9%Z])
                       "x" "y"]) in
  litTexts (getResultsChunks r1) = litTexts (getResultsChunks r2).
Proof.
  intros r1 r2. apply (template_text_fixed_by_shape r1 r2).
  repeat constructor; discriminate.
Defined.

(** X7. The colour of a card: the colour the table gives for the severity;
    for a severity the table does not have, the grey ["#6b7280"], which is
    also the colour of "N/A"; except that a severity named like a member of
    [Object.prototype] gets that member's text.  The table has exactly the
    six severities Critical, High, Medium, Low, Safe and N/A. *)
Theorem severityColor_table (sev : string) :
  let color :=
    jsToString (jsOr (jsGet severityColors sev) (JsString "#6b7280")) in
  (forall c, severityColors !! sev = Some c <->
             (sev, c) ∈ [("Critical", "#dc2626"); ("High", "#ea580c");
                         ("Medium", "#ca8a04"); ("Low", "#16a34a");
                         ("Safe", "#22c55e"); ("N/A", "#6b7280")]) /\
  (forall c, severityColors !! sev = Some c -> color = c) /\
  (severityColors !! sev = None -> sev ∉ objectPrototypeKeys ->
   color = "#6b7280") /\
  (severityColors !! sev = None -> sev ∈ objectPrototypeKeys ->
   color = jsToString (JsInherited sev)).
Proof.
  intros color.
  assert (Htable : forall c, severityColors !! sev = Some c <->
             (sev, c) ∈ [("Critical", "#dc2626"); ("High", "#ea580c");
                         ("Medium", "#ca8a04"); ("Low", "#16a34a");
                         ("Safe", "#22c55e"); ("N/A", "#6b7280")]).
  { intros c. unfold severityColors.
    rewrite !lookup_insert, lookup_empty, !elem_of_cons, elem_of_nil.
    repeat case_decide; subst; split;
      try (intros [= <-]; tauto);
      try discriminate;
      intros Hin; repeat destruct Hin as [Hin|Hin];
      try (injection Hin as <- <-); try congruence; try contradiction. }
  split; [exact Htable|]. unfold color, jsGet. split; [|split].
  - intros c Hc. rewrite Hc. apply Htable in Hc.
    rewrite !elem_of_cons, elem_of_nil in Hc.
    repeat destruct Hc as [Hc|Hc]; try (injection Hc as -> ->; reflexivity).
    destruct Hc.
  - intros -> Hnot. now rewrite bool_decide_eq_false_2.
  - intros -> Hin. now rewrite bool_decide_eq_true_2.
Qed.

Lemma severityColor_table_witness :
  jsToString (jsOr (jsGet severityColors "Unknown") (JsString "#6b7280")) =
  "#6b7280".
Proof.
  refine (proj1 (proj2 (proj2 (severityColor_table "Unknown"))) _ _).
  - vm_compute. reflexivity.
  - unfold objectPrototypeKeys. rewrite !elem_of_cons, elem_of_nil.
    intros Hin. repeat destruct Hin as [Hin|Hin]; try discriminate. exact Hin.
Defined.

(** X8. The flat renderer of [src/extension.js] classifies by the
    vulnerability alone: "None Detected" is safe, "Error" is an analysis
    error, and every other value, the empty one included, is a
    vulnerability; the icon follows the text. *)
Theorem legacy_status_cases (result : Legacy.Result) :
  (Legacy.statusText result = "Code Appears Safe" <->
   Legacy.vulnerability result = "None Detected") /\
  (Legacy.statusText result = "Vulnerability Detected" <->
   Legacy.vulnerability result <> "None Detected" /\
   Legacy.vulnerability result <> "Error") /\
  (Legacy.statusIcon result = "✅" <->
   Legacy.statusText result = "Code Appears Safe") /\
  (Legacy.statusIcon result = "❌" <->
   Legacy.statusText result = "Analysis Error") /\
  (Legacy.statusIcon result = "⚠️" <->
   Legacy.statusText result = "Vulnerability Detected").
Proof.
  unfold Legacy.statusText, Legacy.statusIcon, Legacy.isVulnerable.
  destruct (String.eqb (Legacy.vulnerability result) "None Detected") eqn:E1;
    destruct (String.eqb (Legacy.vulnerability result) "Error") eqn:E2;
    simpl;
    first [apply String.eqb_eq in E1 | apply String.eqb_neq in E1];
    first [apply String.eqb_eq in E2 | apply String.eqb_neq in E2];
    repeat split; intros; try discriminate; try tauto; try congruence;
    try (destruct H; congruence).
Qed.

(** ** The launcher, on whole requests *)

Section RequestOutcomes.
Context {R : Type} `{Host R}.
Variable spawner : Spawner.
Variable commands : list string.
Variable detectorPath : string.
Variable code : string.
Variable language : JsValue.

Abbreviation tryAt := (tryPythonCommand commands detectorPath code language).
Abbreviation deliverTo := (deliver commands detectorPath code language).
Abbreviation runLevels := (runChildren spawner commands detectorPath code language).
Abbreviation started pythonCmd :=
  (mkChild pythonCmd [detectorPath]
     [StdinWrite (JSON_stringify [("code", JsString code); ("language", language)]);
      StdinEnd]).

(** A child that neither errors nor closes leaves the request as it is. *)
Lemma deliver_quiet (index : nat) (events : list ProcEvent)
    (stdout stderr : string) (w : World R) (retries : nat) :
  errorCount events = 0 -> closes events = false ->
  deliverTo index events stdout stderr w retries = (w, retries).
Proof.
  revert stdout stderr.
  induction events as [|[data|data| |exitCode] events IH];
    intros stdout stderr He Hc; simpl in *; auto; discriminate.
Qed.

Lemma lookup_of_drop (index : nat) (c : string) (rest : list string) :
  drop index commands = c :: rest ->
  commands !! index = Some c /\ drop (index + 1) commands = rest.
Proof.
  intros Hdrop.
  assert (Hc : commands !! index = Some c).
  { rewrite <- (Nat.add_0_r index), <- lookup_drop, Hdrop. reflexivity. }
  split; [exact Hc|].
  rewrite Nat.add_1_r. apply drop_S in Hc. rewrite Hc in Hdrop.
  now injection Hdrop.
Qed.

Lemma lookup_of_drop_nil (index : nat) :
  drop index commands = [] -> commands !! index = None.
Proof.
  intros Hdrop. rewrite <- (Nat.add_0_r index), <- lookup_drop, Hdrop.
  reflexivity.
Qed.

Lemma triedCandidates_head (c : string) (rest : list string) :
  triedCandidates spawner (c :: rest) =
  c :: tail (triedCandidates spawner (c :: rest)).
Proof. reflexivity. Qed.

(** The children started from a running child on. *)
Lemma runChildren_tried (levels : nat) :
  (forall pythonCmd, pythonCmd ∈ commands -> errorCount (spawner pythonCmd) <= 1) ->
  forall index c rest (w : World R),
    drop index commands = c :: rest ->
    length rest < levels ->
    children (runLevels levels index 1 w) =
    children w ++ map (fun pythonCmd => started pythonCmd)
                      (tail (triedCandidates spawner (c :: rest))).
Proof.
  intros Hone. induction levels as [|levels IH];
    intros index c rest w Hdrop Hlevels; [lia|].
  destruct (lookup_of_drop index c rest Hdrop) as [Hc Hrest].
  assert (Hin : c ∈ commands) by (eapply list_elem_of_lookup_2; eauto).
  specialize (Hone c Hin).
  cbn [runChildren]. rewrite Hc. cbn [Nat.iter nat_rect].
  pose proof (deliver_children commands detectorPath code language
                index (spawner c) "" "" w 0) as Hch.
  pose proof (deliver_retries commands detectorPath code language
                index (spawner c) "" "" w 0) as Hr.
  destruct (deliverTo index (spawner c) "" "" w 0) as [w1 r1].
  simpl in Hch, Hr. subst r1. cbn [triedCandidates tail].
  destruct (errorCount (spawner c)) as [|[|n]] eqn:He; [| |lia].
  - rewrite runChildren_none, Hch.
    destruct (commands !! (index + 1)); reflexivity.
  - cbn [Nat.eqb]. destruct rest as [|next rest'].
    + rewrite (lookup_of_drop_nil _ Hrest) in Hch.
      rewrite app_nil_r in Hch. simpl. rewrite app_nil_r, <- Hch.
      destruct levels as [|levels']; [reflexivity|].
      cbn [runChildren]. now rewrite (lookup_of_drop_nil _ Hrest).
    + destruct (lookup_of_drop (index + 1) next rest' Hrest) as [Hnext _].
      rewrite Hnext in Hch. simpl in Hch.
      rewrite (IH (index + 1) next rest' w1 Hrest) by (simpl in Hlevels; lia).
      rewrite Hch, <- app_assoc. reflexivity.
Qed.

Lemma runRequest_tried :
  (forall pythonCmd, pythonCmd ∈ commands -> errorCount (spawner pythonCmd) <= 1) ->
  children (runRequest spawner commands detectorPath code language) =
  map (fun pythonCmd => started pythonCmd) (triedCandidates spawner commands).
Proof.
  intros Hone. unfold runRequest.
  destruct commands as [|c rest] eqn:Ecommands; [reflexivity|].
  rewrite <- Ecommands in *.
  rewrite (runChildren_tried (length commands) Hone 0 c rest).
  - unfold tryPythonCommand. rewrite Ecommands. reflexivity.
  - now rewrite Ecommands.
  - rewrite Ecommands. simpl. lia.
Qed.

End RequestOutcomes.

(** X9. When the child of the first candidate emits no ['error'], no other
    candidate is started, whatever the machine would do with them; and when
    that child never emits ['close'] either, [resolve] and [reject] are never
    called: the request stays pending, there is no timeout. *)
Theorem first_start_ends_the_search {R : Type} `{Host R} (spawner : Spawner)
    (first : string) (rest : list string) (detectorPath code : string)
    (language : JsValue) :
  errorCount (spawner first) = 0 ->
  let w : World R := runRequest spawner (first :: rest) detectorPath code language in
  children w =
    [mkChild first [detectorPath]
       [StdinWrite (JSON_stringify [("code", JsString code); ("language", language)]);
        StdinEnd]] /\
  (closes (spawner first) = false -> settled w = None /\ calls w = []).
Proof.
  intros He w. unfold w, runRequest.
  cbn [length runChildren]. change ((first :: rest) !! 0) with (Some first).
  cbn [Nat.iter nat_rect].
  pose proof (deliver_children (first :: rest) detectorPath code language 0
                (spawner first) "" ""
                (tryPythonCommand (first :: rest) detectorPath code language 0 newWorld)
                0) as Hch.
  pose proof (deliver_retries (first :: rest) detectorPath code language 0
                (spawner first) "" ""
                (tryPythonCommand (first :: rest) detectorPath code language 0 newWorld)
                0) as Hr.
  rewrite He in Hch, Hr. split.
  - destruct (deliver _ _ _ _ _ _ _ _ _ _) as [w1 r1]. simpl in Hr. subst r1.
    rewrite runChildren_none. cbn [fst] in Hch. rewrite Hch.
    destruct ((first :: rest) !! (0 + 1)); reflexivity.
  - intros Hc. rewrite (deliver_quiet (first :: rest) detectorPath code language
                          0 (spawner first) "" "" _ 0 He Hc).
    rewrite runChildren_none. split; reflexivity.
Qed.

Lemma first_start_ends_the_search_witness :
  let w : World Response :=
    runRequest (H := sampleHost) pythonHangs ["python"; "python3"; "py"]
      "/ext/detector.py" "x" (JsString "python") in
  length (children w) = 1 /\ settled w = None.
Proof.
  destruct (first_start_ends_the_search (H := sampleHost) pythonHangs
              "python" ["python3"; "py"] "/ext/detector.py" "x"
              (JsString "python") eq_refl) as [Hch Hpending].
  split; [now rewrite Hch|]. now apply Hpending.
Defined.

(** X13. When no child emits ['error'] more than once, the children of a
    request are the candidates of the list in order, up to and including
    the first one whose child emits no ['error']: the next candidate is
    started exactly when the current one errors, and each gets the same
    request. *)
Theorem candidates_tried_until_no_error {R : Type} `{Host R} (spawner : Spawner)
    (commands : list string) (detectorPath code : string) (language : JsValue) :
  (forall pythonCmd, pythonCmd ∈ commands -> errorCount (spawner pythonCmd) <= 1) ->
  children (runRequest spawner commands detectorPath code language) =
  map (fun pythonCmd =>
         mkChild pythonCmd [detectorPath]
           [StdinWrite (JSON_stringify [("code", JsString code);
                                        ("language", language)]);
            StdinEnd])
      (triedCandidates spawner commands).
Proof. apply runRequest_tried. Qed.

Lemma candidates_tried_until_no_error_witness :
  map childCommand
    (children (runRequest (H := sampleHost) python3Only
                 ["python"; "python3"; "py"] "/ext/detector.py" "x"
                 (JsString "python"))) =
  ["python"; "python3"].
Proof.
  rewrite (candidates_tried_until_no_error (H := sampleHost) python3Only
             ["python"; "python3"; "py"] "/ext/detector.py" "x"
             (JsString "python")).
  - reflexivity.
  - intros c _. unfold python3Only. destruct (String.eqb c "python3"); simpl; lia.
Defined.

(** ** The command handler, from the selection to what is shown *)

(** The entries of [languageMap]. *)
Lemma languageMap_entries (languageId v : string) :
  languageMap !! languageId = Some v <->
  (languageId, v) ∈ [("python", "python"); ("javascript", "javascript");
                     ("javascriptreact", "javascript");
                     ("typescript", "javascript");
                     ("typescriptreact", "javascript")].
Proof.
  unfold languageMap.
  rewrite !lookup_insert, lookup_empty, !elem_of_cons, elem_of_nil.
  repeat case_decide; subst; split;
    try (intros [= <-]; tauto);
    try discriminate;
    intros Hin; repeat destruct Hin as [Hin|Hin];
    try congruence; try contradiction.
Qed.

Lemma languageMap_keys (languageId : string) :
  is_Some (languageMap !! languageId) <->
  languageId ∈ ["python"; "javascript"; "javascriptreact"; "typescript";
                "typescriptreact"].
Proof.
  rewrite !elem_of_cons, elem_of_nil. split.
  - intros [v Hv]. apply languageMap_entries in Hv.
    rewrite !elem_of_cons, elem_of_nil in Hv.
    repeat destruct Hv as [Hv|Hv]; try (injection Hv as -> ->; tauto).
    destruct Hv.
  - intros Hin. repeat destruct Hin as [Hin|Hin]; try (subst; eexists; reflexivity).
    destruct Hin.
Qed.

(** X14. What [languageMap] answers.  "python" maps to python; "javascript",
    "javascriptreact", "typescript" and "typescriptreact" map to javascript;
    a name of a member of [Object.prototype] gives that member; every other
    language ID gives [undefined], and these are exactly the language IDs
    for which a non-blank selection gets the "is not supported" warning. *)
Theorem languageMap_table {R : Type} `{Host R} (render : R -> string)
    (spawner : Spawner) (extensionPath : string) (editor : Editor) :
  let id := languageId editor in
  let known := ["python"; "javascript"; "javascriptreact"; "typescript";
                "typescriptreact"] in
  (jsGet languageMap id = JsString "python" <-> id = "python") /\
  (jsGet languageMap id = JsString "javascript" <->
   id ∈ ["javascript"; "javascriptreact"; "typescript"; "typescriptreact"]) /\
  (jsGet languageMap id = JsInherited id <->
   id ∈ objectPrototypeKeys) /\
  (jsGet languageMap id = JsUndefined <->
   (id ∉ known) /\ (id ∉ objectPrototypeKeys)) /\
  (truthy (JsString (selectedText editor)) = true ->
   trim (selectedText editor) <> "" ->
   (ui (analyzeCommand render spawner extensionPath (Some editor)) =
    [ShowWarningMessage
       ("Language " +:+ dq +:+ id +:+ dq +:+
        " is not supported. Only Python and JavaScript are currently supported.")]
    <-> (id ∉ known) /\ (id ∉ objectPrototypeKeys))).
Proof.
  intros id known.
  assert (Hundef : jsGet languageMap id = JsUndefined <->
                   (id ∉ known) /\ (id ∉ objectPrototypeKeys)).
  { unfold jsGet, known. rewrite <- languageMap_keys.
    destruct (languageMap !! id) as [v|] eqn:E.
    - split; [discriminate|]. intros [Hnot _]. destruct Hnot. eauto.
    - case_bool_decide as Hin.
      + split; [discriminate|]. intros [_ Hnot]. contradiction.
      + split; [|reflexivity]. intros _. split; [|exact Hin].
        intros [v Hv]. discriminate. }
  assert (Hown : forall v, jsGet languageMap id = JsString v <->
                           languageMap !! id = Some v).
  { intros v. unfold jsGet. destruct (languageMap !! id) as [v'|].
    - split; intros [= ->]; reflexivity.
    - case_bool_decide; split; discriminate. }
  split; [|split; [|split; [|split; [exact Hundef|]]]].
  - rewrite Hown, languageMap_entries, !elem_of_cons, elem_of_nil. split.
    + intros Hin. repeat destruct Hin as [Hin|Hin];
        first [congruence | contradiction].
    + intros ->. auto.
  - rewrite Hown, languageMap_entries, !elem_of_cons, elem_of_nil. split.
    + intros Hin. repeat destruct Hin as [Hin|Hin];
        first [ congruence | contradiction
              | left; congruence
              | right; left; congruence
              | right; right; left; congruence
              | right; right; right; left; congruence ].
    + intros [Hin|[Hin|[Hin|[Hin|Hin]]]]; try (rewrite Hin; auto 8).
      now apply elem_of_nil in Hin.
  - unfold jsGet. destruct (languageMap !! id) as [v|] eqn:E.
    + split; [discriminate|].
      intros Hin. unfold objectPrototypeKeys in Hin.
      rewrite !elem_of_cons, elem_of_nil in Hin.
      repeat destruct Hin as [Hin|Hin]; try (rewrite Hin in E; vm_compute in E;
                                            discriminate).
      destruct Hin.
    + case_bool_decide as Hin; [split; auto|split; [discriminate|contradiction]].
  - intros Hsel Htrim. rewrite <- Hundef. unfold analyzeCommand.
    rewrite Hsel. apply String.eqb_neq in Htrim. rewrite Htrim.
    cbn [negb orb]. fold id.
    destruct (jsGet languageMap id) as [|s|name] eqn:E.
    + split; reflexivity.
    + pose proof (proj1 (Hown s) eq_refl) as Hs.
      apply languageMap_lookup in Hs.
      destruct Hs as [-> | ->]; cbn [truthy negb]; split; discriminate.
    + cbn [truthy negb]. split; discriminate.
Qed.

Lemma languageMap_table_witness :
  ui (analyzeCommand (H := sampleHost) getResultsHtml pythonInstalled "/ext"
        (Some (mkEditor "puts 1" "ruby"))) =
  [ShowWarningMessage
     ("Language " +:+ dq +:+ "ruby" +:+ dq +:+
      " is not supported. Only Python and JavaScript are currently supported.")].
Proof.
  refine (proj2 (proj2 (proj2 (proj2 (proj2
            (languageMap_table (H := sampleHost) getResultsHtml pythonInstalled
               "/ext" (mkEditor "puts 1" "ruby"))))) eq_refl _) _).
  - discriminate.
  - unfold objectPrototypeKeys. rewrite !elem_of_cons, elem_of_nil.
    split; intros Hin; repeat destruct Hin as [Hin|Hin];
      try discriminate; exact Hin.
Defined.
Lemma truthy_nonempty (s : string) : truthy (JsString s) = true <-> s <> "".
Proof.
  simpl. rewrite negb_true_iff. apply String.eqb_neq.
Qed.


(** ** A request whose first child starts, in every order of events *)

Lemma received_app (stream : Stream) (a b : list (Stream * string)) :
  received stream (a ++ b) = received stream a +:+ received stream b.
Proof.
  induction a as [|[[] data] a IH]; destruct stream; simpl; rewrite ?IH;
    try reflexivity; now rewrite append_assoc.
Qed.

Section FirstChild.
Context {R : Type} `{Host R}.
Variable spawner : Spawner.
Variable first : string.
Variable rest : list string.
Variable detectorPath : string.
Variable code : string.
Variable language : JsValue.
Variable chunks : list (Stream * string).
Variable exitCode : option Z.

Hypothesis first_runs : spawner first = map dataEvent chunks ++ [CloseEvent exitCode].

Abbreviation firstStarted :=
  (tryPythonCommand (first :: rest) detectorPath code language 0 (newWorld (R := R))).
Abbreviation firstOutcome :=
  (onClose exitCode (received Stdout chunks) (received Stderr chunks)).

(** The child has been heard up to its [heard]-th chunk, or has closed. *)
Abbreviation firstChildAt st :=
  ((exists heard,
      st = (firstStarted,
            [Scheduled.mkRunning 0
               (map dataEvent (drop heard chunks) ++ [CloseEvent exitCode])
               (received Stdout (take heard chunks))
               (received Stderr (take heard chunks))])) \/
   st = (settle firstOutcome firstStarted,
         [Scheduled.mkRunning 0 [] (received Stdout chunks)
            (received Stderr chunks)])).

Lemma first_child_step (k : nat) (st : World R * list Scheduled.Running) :
  firstChildAt st ->
  firstChildAt
    (Scheduled.deliverNext spawner (first :: rest) detectorPath code language k st).
Proof.
  intros [[heard ->]| ->]; unfold Scheduled.deliverNext; cbn [fst snd].
  - destruct k as [|k]; [|left; exists heard; reflexivity].
    change (_ !! 0) with
      (Some (Scheduled.mkRunning 0
               (map dataEvent (drop heard chunks) ++ [CloseEvent exitCode])
               (received Stdout (take heard chunks))
               (received Stderr (take heard chunks)))).
    cbn [Scheduled.pending Scheduled.runIndex Scheduled.stdout Scheduled.stderr].
    destruct (chunks !! heard) as [chunk|] eqn:Hchunk.
    + rewrite (drop_S _ _ _ Hchunk). left. exists (S heard).
      rewrite (take_S_r _ _ _ Hchunk), !received_app.
      destruct chunk as [[] data]; simpl; rewrite ?append_empty_r; reflexivity.
    + apply lookup_ge_None in Hchunk.
      rewrite (drop_ge _ _ Hchunk), (take_ge _ _ Hchunk). right. reflexivity.
  - destruct k as [|k]; right; reflexivity.
Qed.

(** In every order, the request is where the first child's events left it. *)
Lemma first_child_always (schedule : list nat) :
  firstChildAt
    (Scheduled.runRequest spawner (first :: rest) detectorPath code language schedule).
Proof.
  apply (runSchedule_keeps spawner (first :: rest) detectorPath code language
           (fun st => firstChildAt st)).
  - intros k st. apply first_child_step.
  - left. exists 0. unfold Scheduled.tryCandidate. cbn [fst snd].
    change ((first :: rest) !! 0) with (Some first). cbv iota beta.
    rewrite first_runs, drop_0, take_0. reflexivity.
Qed.

(** The promise is that of the first child's ['close'] once it is
    delivered, and open before. *)
Lemma first_child_settles (schedule : list nat) :
  let st :=
    Scheduled.runRequest spawner (first :: rest) detectorPath code language schedule in
  settled (fst st) =
    (if Scheduled.quiescent st then Some firstOutcome else None) /\
  length (children (fst st)) = 1.
Proof.
  intros st. destruct (first_child_always schedule) as [[heard Hst]|Hst];
    fold st in Hst; rewrite Hst.
  - unfold Scheduled.quiescent, Scheduled.finished. cbn [fst snd forallb andb].
    cbn [Scheduled.pending].
    destruct (map dataEvent (drop heard chunks)); split; reflexivity.
  - split; reflexivity.
Qed.

End FirstChild.

(** ** A failed start followed by a candidate that starts *)

Section SecondChild.
Context {R : Type} `{Host R}.
Variable spawner : Spawner.
Variable commands : list string.
Variable detectorPath : string.
Variable code : string.
Variable language : JsValue.

Abbreviation stepsOf :=
  (Scheduled.runSchedule spawner commands detectorPath code language).

(** The data of the second child reach its accumulators and nothing else. *)
Lemma second_child_hears (chunks : list (Stream * string)) :
  forall (w : World R) (other : Scheduled.Running) (later : list ProcEvent)
         (stdout stderr : string),
    stepsOf (repeat 1 (length chunks))
      (w, [other; Scheduled.mkRunning 1 (map dataEvent chunks ++ later) stdout stderr]) =
    (w, [other;
         Scheduled.mkRunning 1 later (stdout +:+ received Stdout chunks)
           (stderr +:+ received Stderr chunks)]).
Proof.
  induction chunks as [|[[] data] chunks IH]; intros w other later stdout stderr.
  - simpl. now rewrite !append_empty_r.
  - cbn [length repeat]. unfold Scheduled.runSchedule in *. cbn [foldl].
    unfold Scheduled.deliverNext at 2. cbn.
    rewrite IH. simpl. now rewrite append_assoc.
  - cbn [length repeat]. unfold Scheduled.runSchedule in *. cbn [foldl].
    unfold Scheduled.deliverNext at 2. cbn.
    rewrite IH. simpl. now rewrite append_assoc.
Qed.

(** No child has an ['error'] left to emit. *)
Abbreviation errorFree st :=
  (forall child : Scheduled.Running, In child (snd st) ->
     errorCount (Scheduled.pending child) = 0).

Lemma errorFree_step (k : nat) (st : World R * list Scheduled.Running) :
  errorFree st ->
  errorFree (Scheduled.deliverNext spawner commands detectorPath code language k st).
Proof.
  destruct st as [w live]. intros Hfree. unfold Scheduled.deliverNext. cbn [fst snd].
  destruct (live !! k) as [child|] eqn:Hk; [|exact Hfree].
  assert (Hchild : errorCount (Scheduled.pending child) = 0).
  { apply Hfree. apply list_elem_of_In. eapply list_elem_of_lookup_2. exact Hk. }
  assert (Hinsert : forall later stdout stderr,
            errorCount later = 0 ->
            errorFree (w, <[k := Scheduled.mkRunning (Scheduled.runIndex child)
                                  later stdout stderr]> live)).
  { intros later stdout stderr Hlater other Hin. cbn [snd] in Hin.
    apply list_elem_of_In, list_elem_of_lookup_1 in Hin as [j Hj].
    apply list_lookup_insert_Some in Hj as [(_ & <- & _)|(_ & Hj)];
      [exact Hlater|].
    apply Hfree. apply list_elem_of_In. eapply list_elem_of_lookup_2. exact Hj. }
  destruct (Scheduled.pending child) as [|[data|data| |exitCode] later];
    simpl in Hchild; try discriminate; cbn [fst snd].
  - exact Hfree.
  - apply Hinsert. exact Hchild.
  - apply Hinsert. exact Hchild.
  - apply (Hinsert later (Scheduled.stdout child) (Scheduled.stderr child) Hchild).
Qed.

(** Without an ['error'] left, every order delivers failed starts first. *)
Lemma errorFree_startFailuresFirst (schedule : list nat) :
  forall st, errorFree st ->
    Scheduled.startFailuresFirst spawner commands detectorPath code language
      schedule st = true.
Proof.
  induction schedule as [|k schedule IH]; intros st Hfree; [reflexivity|].
  cbn [Scheduled.startFailuresFirst].
  rewrite (IH _ (errorFree_step k st Hfree)), andb_true_r.
  destruct (existsb Scheduled.errorNext (snd st)) eqn:Hsome; [|reflexivity].
  apply existsb_exists in Hsome as (child & Hin & Hnext).
  apply errorNext_counted in Hnext. specialize (Hfree child Hin). contradiction.
Qed.

Lemma runSchedule_app (first later : list nat) (st : World R * list Scheduled.Running) :
  stepsOf (first ++ later) st = stepsOf later (stepsOf first st).
Proof. unfold Scheduled.runSchedule. apply foldl_app. Qed.

Lemma startFailuresFirst_app (first later : list nat) :
  forall st,
    Scheduled.startFailuresFirst spawner commands detectorPath code language
      (first ++ later) st =
    Scheduled.startFailuresFirst spawner commands detectorPath code language first st
    && Scheduled.startFailuresFirst spawner commands detectorPath code language
         later (stepsOf first st).
Proof.
  induction first as [|k first IH]; intros st; [reflexivity|].
  cbn [app Scheduled.startFailuresFirst]. rewrite IH, andb_assoc. reflexivity.
Qed.

End SecondChild.

(** X10. Whether a candidate that starts gets to answer depends on the order
    of two events.  When the first candidate fails to start, Node emits its
    ['error'] at once and its ['close'] later, and the ['error'] handler
    starts the second candidate.  If the ['close'] of the failed child is
    delivered before the second child has closed, the promise is rejected
    with the failed child's exit code and empty output; if it is delivered
    after, the promise carries the outcome of the second child.  Both orders
    deliver the failed start first, and in both the same two children are
    started. *)
Theorem first_close_races_second_candidate {R : Type} `{Host R}
    (spawner : Spawner) (first second : string) (rest : list string)
    (detectorPath code : string) (language : JsValue)
    (chunks : list (Stream * string)) (failedCode exitCode : option Z) :
  spawner first = [ErrorEvent; CloseEvent failedCode] ->
  spawner second = map dataEvent chunks ++ [CloseEvent exitCode] ->
  let commands := first :: second :: rest in
  let run := Scheduled.runRequest (R := R) spawner commands detectorPath code language in
  let inOrder schedule :=
    Scheduled.startFailuresFirst (R := R) spawner commands detectorPath code language
      schedule
      (Scheduled.tryCandidate spawner commands detectorPath code language 0
         (newWorld, [])) in
  let closeFirst := [0; 0] ++ repeat 1 (length chunks + 1) in
  let closeLast := [0] ++ repeat 1 (length chunks + 1) ++ [0] in
  inOrder closeFirst = true /\ inOrder closeLast = true /\
  Scheduled.quiescent (run closeFirst) = true /\
  Scheduled.quiescent (run closeLast) = true /\
  map childCommand (children (fst (run closeFirst))) = [first; second] /\
  map childCommand (children (fst (run closeLast))) = [first; second] /\
  settled (fst (run closeFirst)) = Some (onClose failedCode "" "") /\
  settled (fst (run closeLast)) =
    Some (onClose exitCode (received Stdout chunks) (received Stderr chunks)).
Proof.
  intros Hfirst Hsecond commands run inOrder closeFirst closeLast.
  set (start := Scheduled.tryCandidate (R := R) spawner commands detectorPath code
                  language 0 (newWorld, [])) in *.
  set (started pythonCmd :=
         mkChild pythonCmd [detectorPath]
           [StdinWrite (JSON_stringify [("code", JsString code); ("language", language)]);
            StdinEnd]).
  set (both := addChild (started second) (addChild (started first) (newWorld (R := R)))).
  set (answer := Scheduled.mkRunning 1 (map dataEvent chunks ++ [CloseEvent exitCode]) "" "").
  set (answered := Scheduled.mkRunning 1 [] (received Stdout chunks) (received Stderr chunks)).
  set (steps := Scheduled.runSchedule (R := R) spawner commands detectorPath code language).
  assert (Hstart : start =
            (addChild (started first) newWorld,
             [Scheduled.mkRunning 0 [ErrorEvent; CloseEvent failedCode] "" ""])).
  { unfold start, Scheduled.tryCandidate, tryPythonCommand. cbn [fst snd].
    change (commands !! 0) with (Some first). cbv iota beta. rewrite Hfirst.
    reflexivity. }
  assert (Hfailed : steps [0] start =
            (both, [Scheduled.mkRunning 0 [CloseEvent failedCode] "" ""; answer])).
  { rewrite Hstart. unfold steps, Scheduled.runSchedule. cbn [foldl].
    unfold Scheduled.deliverNext, Scheduled.tryCandidate, tryPythonCommand.
    cbn [fst snd]. cbn [lookup list_lookup]. cbv iota beta.
    cbn [Scheduled.pending Scheduled.runIndex Scheduled.stdout Scheduled.stderr Nat.add].
    change (commands !! 1) with (Some second). cbv iota beta. rewrite Hsecond.
    reflexivity. }
  assert (Hheard : forall w other,
            steps (repeat 1 (length chunks + 1)) (w, [other; answer]) =
            Scheduled.deliverNext spawner commands detectorPath code language 1
              (w, [other; Scheduled.mkRunning 1 [CloseEvent exitCode]
                            (received Stdout chunks) (received Stderr chunks)])).
  { intros w other. rewrite repeat_app. unfold steps.
    rewrite runSchedule_app. unfold answer.
    rewrite second_child_hears. reflexivity. }
  assert (Hearly : run closeFirst =
            (settle (onClose exitCode (received Stdout chunks) (received Stderr chunks))
               (settle (onClose failedCode "" "") both),
             [Scheduled.mkRunning 0 [] "" ""; answered])).
  { unfold run, Scheduled.runRequest. fold start. unfold closeFirst.
    change ([0; 0] ++ repeat 1 (length chunks + 1))
      with ([0] ++ [0] ++ repeat 1 (length chunks + 1)).
    unfold steps in *. rewrite !runSchedule_app, Hfailed.
    change (Scheduled.runSchedule spawner commands detectorPath code language [0]
              (both, [Scheduled.mkRunning 0 [CloseEvent failedCode] "" ""; answer]))
      with (settle (onClose failedCode "" "") both,
            [Scheduled.mkRunning 0 [] "" ""; answer]).
    rewrite Hheard. reflexivity. }
  assert (Hlate : run closeLast =
            (settle (onClose failedCode "" "")
               (settle (onClose exitCode (received Stdout chunks) (received Stderr chunks))
                  both),
             [Scheduled.mkRunning 0 [] "" ""; answered])).
  { unfold run, Scheduled.runRequest. fold start. unfold closeLast.
    unfold steps in *. rewrite !runSchedule_app, Hfailed, Hheard.
    reflexivity. }
  assert (Hfree : forall child,
            In child [Scheduled.mkRunning 0 [CloseEvent failedCode] "" ""; answer] ->
            errorCount (Scheduled.pending child) = 0).
  { intros child [<-|[<-|[]]]; [reflexivity|]. unfold answer. cbn [Scheduled.pending].
    rewrite errorCount_app. simpl.
    clear. induction chunks as [|[[] data] chunks IH]; simpl; auto. }
  assert (Horder : forall schedule, inOrder (0 :: schedule) = true).
  { intros schedule. unfold inOrder. fold start.
    cbn [Scheduled.startFailuresFirst].
    change (Scheduled.deliverNext spawner commands detectorPath code language 0 start)
      with (steps [0] start).
    rewrite Hfailed, errorFree_startFailuresFirst by exact Hfree.
    rewrite Hstart. reflexivity. }
  split; [apply Horder|]. split; [apply Horder|].
  rewrite Hearly, Hlate. repeat split.
Qed.

Lemma first_close_races_second_candidate_witness :
  let run :=
    Scheduled.runRequest (H := sampleHost) python3Only ["python"; "python3"; "py"]
      "/ext/detector.py" "x" (JsString "python") in
  settled (fst (run [0; 0; 1; 1])) = Some (Rejected "Detector exited with code -2: ") /\
  settled (fst (run [0; 1; 1; 0])) = Some (Resolved (mkResponse "python" (Some []))).
Proof.
  destruct (first_close_races_second_candidate (H := sampleHost) python3Only
              "python" "python3" ["py"] "/ext/detector.py" "x" (JsString "python")
              [(Stdout, "{}")] (Some (-2)%Z) (Some 0%Z) eq_refl eq_refl)
    as (_ & _ & _ & _ & _ & _ & Hearly & Hlate).
  split; [exact Hearly|exact Hlate].
Defined.

(** ** The command, with a renderer that may throw *)

(** X15. The command starts the detector exactly when there is an editor,
    the selection is neither empty nor blank, and [languageMap] gives a
    truthy value for the document's language.  When it does not start the
    detector it shows exactly one message and nothing else.  When it does,
    it shows the progress notification and then, once the promise is
    settled: for a rejection the "Analysis failed" error alone; for a result
    the panel, which is created before the renderer is called, followed by
    the page given to it when the renderer returns one, and by the "Analysis
    failed" error when the renderer throws, the panel staying without a
    page. *)
Theorem command_starts_detector_exactly {R : Type} `{Host R}
    (render : R -> Scheduled.Rendered) (spawner : Spawner) (schedule : list nat)
    (extensionPath : string) (activeTextEditor : option Editor) :
  let run :=
    Scheduled.analyzeCommand render spawner schedule extensionPath activeTextEditor in
  let panel :=
    Scheduled.CreateWebviewPanel "vulnDetectionResults" "Security Analysis Results" in
  let failed message := Scheduled.ShowErrorMessage ("Analysis failed: " +:+ message) in
  (is_Some (Scheduled.request run) <->
   exists editor,
     activeTextEditor = Some editor /\
     selectedText editor <> "" /\
     trim (selectedText editor) <> "" /\
     truthy (jsGet languageMap (languageId editor)) = true) /\
  (Scheduled.request run = None ->
   exists message,
     Scheduled.ui run = [Scheduled.ShowErrorMessage message] \/
     Scheduled.ui run = [Scheduled.ShowWarningMessage message]) /\
  (forall st, Scheduled.request run = Some st ->
   exists shown,
     Scheduled.ui run =
       Scheduled.WithProgress "Analyzing code for vulnerabilities..." :: shown /\
     match settled (fst st) with
     | None => shown = []
     | Some (Rejected message) => shown = [failed message]
     | Some (Resolved result) =>
         match render result with
         | Scheduled.Page html => shown = [panel; Scheduled.SetWebviewHtml html]
         | Scheduled.Thrown message => shown = [panel; failed message]
         end
     end).
Proof.
  intros run panel failed. unfold run, Scheduled.analyzeCommand.
  destruct activeTextEditor as [editor|].
  2:{ cbn [Scheduled.request Scheduled.ui]. split; [|split].
      - split; [intros [w Hw]; discriminate|].
        intros (editor & Hed & _). discriminate.
      - intros _. eexists. left. reflexivity.
      - intros st Hst. discriminate. }
  destruct (truthy (JsString (selectedText editor))) eqn:Hsel; cbn [negb orb].
  2:{ cbn [Scheduled.request Scheduled.ui]. split; [|split].
      - split; [intros [w Hw]; discriminate|].
        intros (editor' & [= <-] & Hne & _).
        apply truthy_nonempty in Hne. congruence.
      - intros _. eexists. left. reflexivity.
      - intros st Hst. discriminate. }
  apply truthy_nonempty in Hsel.
  destruct (String.eqb (trim (selectedText editor)) "") eqn:Htrim.
  { cbn [Scheduled.request Scheduled.ui]. apply String.eqb_eq in Htrim.
    split; [|split].
    - split; [intros [w Hw]; discriminate|].
      intros (editor' & [= <-] & _ & Hne & _). contradiction.
    - intros _. eexists. left. reflexivity.
    - intros st Hst. discriminate. }
  apply String.eqb_neq in Htrim.
  destruct (truthy (jsGet languageMap (languageId editor))) eqn:Hlang;
    cbn [negb Scheduled.request Scheduled.ui].
  - split; [|split].
    + split; [|eauto]. intros _. exists editor. auto.
    + discriminate.
    + intros st [= <-]. eexists. split; [reflexivity|].
      unfold Scheduled.afterAnalysis, Scheduled.showResultsPanel.
      destruct (settled _) as [[result|message]|]; try reflexivity.
      destruct (render result); reflexivity.
  - split; [|split].
    + split; [intros [w Hw]; discriminate|].
      intros (editor' & [= <-] & _ & _ & Htrue). congruence.
    + intros _. eexists. right. reflexivity.
    + intros st Hst. discriminate.
Qed.

(** X16. From the selection to the panel, in every order of events.  For a
    non-blank selection in a language of the map, when the child of [python]
    emits data and then ['close'], that child is the only one started, and
    the command shows the progress notification alone until the ['close'] is
    delivered.  From then on it has shown, for exit code 0 and parseable
    output, the panel with the page of the parsed value, or the panel
    without a page and the error "Analysis failed: " with the renderer's
    message when the renderer throws on that value; otherwise the error
    "Analysis failed: " with the message of the ['close'] handler. *)
Theorem command_outcome_in_every_order {R : Type} `{Host R}
    (render : R -> Scheduled.Rendered) (spawner : Spawner) (schedule : list nat)
    (extensionPath : string) (editor : Editor) (mapped : string)
    (chunks : list (Stream * string)) (exitCode : option Z) :
  selectedText editor <> "" ->
  trim (selectedText editor) <> "" ->
  languageMap !! languageId editor = Some mapped ->
  spawner "python" = map dataEvent chunks ++ [CloseEvent exitCode] ->
  let run :=
    Scheduled.analyzeCommand render spawner schedule extensionPath (Some editor) in
  let panel :=
    Scheduled.CreateWebviewPanel "vulnDetectionResults" "Security Analysis Results" in
  let failed message := Scheduled.ShowErrorMessage ("Analysis failed: " +:+ message) in
  exists st,
    Scheduled.request run = Some st /\
    map childCommand (children (fst st)) = ["python"] /\
    Scheduled.ui run =
      Scheduled.WithProgress "Analyzing code for vulnerabilities..." ::
      (if Scheduled.quiescent st then
         match onClose exitCode (received Stdout chunks) (received Stderr chunks) with
         | Resolved result =>
             match render result with
             | Scheduled.Page html => [panel; Scheduled.SetWebviewHtml html]
             | Scheduled.Thrown message => [panel; failed message]
             end
         | Rejected message => [failed message]
         end
       else []).
Proof.
  intros Hsel Htrim Hmap Hruns run panel failed.
  set (st := Scheduled.analyzeCode spawner schedule (selectedText editor)
               (JsString mapped) extensionPath).
  assert (Hrun : run =
            Scheduled.mkCommandRun
              (Scheduled.WithProgress "Analyzing code for vulnerabilities..." ::
               Scheduled.afterAnalysis render (settled (fst st)))
              (Some st)).
  { unfold run, Scheduled.analyzeCommand, jsGet. rewrite Hmap.
    apply truthy_nonempty in Hsel. rewrite Hsel.
    apply String.eqb_neq in Htrim. rewrite Htrim.
    destruct (languageMap_lookup _ _ Hmap) as [-> | ->]; reflexivity. }
  exists st. rewrite Hrun. cbn [Scheduled.request Scheduled.ui].
  split; [reflexivity|].
  destruct (first_child_always spawner "python" ["python3"; "py"]
              (path_join extensionPath "detector.py") (selectedText editor)
              (JsString mapped) chunks exitCode Hruns schedule) as [[heard Hst]|Hst];
    change (Scheduled.runRequest _ _ _ _ _ schedule) with st in Hst; rewrite Hst.
  - split; [reflexivity|]. f_equal.
    unfold Scheduled.quiescent, Scheduled.finished. cbn [fst snd forallb andb].
    cbn [Scheduled.pending].
    destruct (map dataEvent (drop heard chunks)); reflexivity.
  - split; [reflexivity|]. f_equal.
    unfold Scheduled.quiescent, Scheduled.finished. cbn [fst snd forallb andb].
    cbn [Scheduled.pending]. cbv iota.
    change (settled (settle ?s (tryPythonCommand _ _ _ _ 0 newWorld))) with (Some s).
    unfold Scheduled.afterAnalysis, Scheduled.showResultsPanel.
    destruct (onClose _ _ _) as [result|message]; [|reflexivity].
    destruct (render result); reflexivity.
Qed.

Lemma command_starts_detector_exactly_witness :
  is_Some (Scheduled.request
             (Scheduled.analyzeCommand (H := sampleHost)
                (fun result => Scheduled.Page (getResultsHtml result))
                pythonInstalled [0; 0; 0] "/ext"
                (Some (mkEditor "x = 1 + 1" "python")))).
Proof.
  apply (proj1 (command_starts_detector_exactly (H := sampleHost)
                  (fun result => Scheduled.Page (getResultsHtml result))
                  pythonInstalled [0; 0; 0] "/ext"
                  (Some (mkEditor "x = 1 + 1" "python")))).
  exists (mkEditor "x = 1 + 1" "python").
  split; [reflexivity|]. split; [discriminate|]. split; [discriminate|].
  vm_compute. reflexivity.
Defined.

Lemma command_outcome_in_every_order_witness :
  let panel :=
    Scheduled.CreateWebviewPanel "vulnDetectionResults" "Security Analysis Results" in
  let editor := mkEditor "x = 1 + 1" "python" in
  Scheduled.ui
    (Scheduled.analyzeCommand (H := sampleHost)
       (fun result => Scheduled.Page (getResultsHtml result))
       pythonInstalled [0; 0; 0] "/ext" (Some editor)) =
  [Scheduled.WithProgress "Analyzing code for vulnerabilities...";
   panel;
   Scheduled.SetWebviewHtml (getResultsHtml (mkResponse "python" (Some [])))] /\
  Scheduled.ui
    (Scheduled.analyzeCommand (H := sampleHost)
       (fun _ => Scheduled.Thrown "results.map is not a function")
       pythonInstalled [0; 0; 0] "/ext" (Some editor)) =
  [Scheduled.WithProgress "Analyzing code for vulnerabilities...";
   panel;
   Scheduled.ShowErrorMessage "Analysis failed: results.map is not a function"].
Proof.
  intros panel editor. split.
  - destruct (command_outcome_in_every_order (H := sampleHost)
                (fun result => Scheduled.Page (getResultsHtml result))
                pythonInstalled [0; 0; 0] "/ext" editor "python"
                [(Stdout, "{"); (Stdout, "}")] (Some 0%Z))
      as (st & Hst & _ & Hui);
      [discriminate|discriminate|vm_compute; reflexivity|reflexivity|].
    injection Hst as <-. exact Hui.
  - destruct (command_outcome_in_every_order (H := sampleHost)
                (fun _ => Scheduled.Thrown "results.map is not a function")
                pythonInstalled [0; 0; 0] "/ext" editor "python"
                [(Stdout, "{"); (Stdout, "}")] (Some 0%Z))
      as (st & Hst & _ & Hui);
      [discriminate|discriminate|vm_compute; reflexivity|reflexivity|].
    injection Hst as <-. exact Hui.
Defined.
